(** * Crypto dashboard: the market-data transformation pipeline of [app.py]

    A shallow embedding of the two data paths of the dashboard:
    - the historical path, [get_historical_data] and the [all_hist_data]
      loop, which turns a market-chart response into a table of candles and
      indicators;
    - the live path, [get_live_price] and [update_live], which appends
      samples to per-asset buffers and builds the table that is charted.

    The tables are followed in two layers.  Their layout (the rows and the
    columns, the cells that are missing, the calls that raise) is followed
    on frames whose numbers are exact rationals ([Q]), a missing value
    (pandas' NaN or NaT) being [None] and timestamps being instants counted
    as integers ([Z]).  The values that pandas computes for the candle and
    indicator columns are followed in binary64 arithmetic, with the dtype
    of each column, in the module [Float64].  The pandas operations the
    source calls ([to_datetime], [shift], [rolling], [ewm], column
    assignment with index alignment) are written out below as the source
    relies on them. *)

From Stdlib Require Import QArith Qminmax Qfield Lqa Lia.
From Stdlib Require PrimFloat FloatOps SpecFloat FloatAxioms.
From stdpp Require Import gmap strings list sorting.

Local Open Scope Q_scope.
Local Open Scope stdpp_scope.

(** ** Series and data frames *)

(** A cell of a numeric column: [None] is the missing value. *)
Abbreviation Cell := (option Q) (only parsing).

(** A pandas Series: labels and values, position by position. *)
Record Series : Type := mkSeries {
  s_index : list Z;
  s_values : list Cell
}.

(** A pandas DataFrame: a row index and named columns in insertion order. *)
Record DataFrame : Type := mkDF {
  df_index : list Z;
  df_columns : list (string * list Cell)
}.

(** [pd.DataFrame()] *)
Definition empty_frame : DataFrame := mkDF [] [].

(** [RangeIndex(n)]: the labels 0, 1, ..., n-1. *)
Definition range_index (n : nat) : list Z := map Z.of_nat (seq 0 n).

Fixpoint lookup_col (name : string) (cols : list (string * list Cell))
  : option (list Cell) :=
  match cols with
  | [] => None
  | (k, v) :: rest => if bool_decide (k = name) then Some v else lookup_col name rest
  end.

(** [df[name]]: the column as a Series over the frame's index; a missing
    column is a [KeyError] ([None]). *)
Definition getitem (df : DataFrame) (name : string) : option Series :=
  vals ← lookup_col name (df_columns df);
  Some (mkSeries (df_index df) vals).

(** The cell of column [name] at position [i]: [None] when the column or the
    position does not exist, [Some None] for a missing value. *)
Definition df_cell (df : DataFrame) (name : string) (i : nat) : option Cell :=
  vals ← lookup_col name (df_columns df);
  vals !! i.

(** Value of a Series at label [t] (first occurrence); missing when the
    label does not occur. *)
Fixpoint label_lookup (t : Z) (idx : list Z) (vals : list Cell) : Cell :=
  match idx, vals with
  | k :: idx', v :: vals' => if bool_decide (k = t) then v else label_lookup t idx' vals'
  | _, _ => None
  end.

(** [_reindex_for_setitem]: the values are taken as they are when the two
    indexes are equal (or the frame has no rows); otherwise the Series is
    reindexed on the frame's index, which raises ([None]) when the labels of
    the Series are not unique. *)
Definition reindex_for_setitem (s : Series) (idx : list Z) : option (list Cell) :=
  if bool_decide (s_index s = idx) || bool_decide (idx = [])
  then Some (s_values s)
  else if bool_decide (NoDup (s_index s))
       then Some (map (fun t => label_lookup t (s_index s) (s_values s)) idx)
       else None.

(** [_ensure_valid_index]: a frame without rows takes the index of the first
    non-empty Series assigned to it; the columns it already has are filled
    with missing values. *)
Definition ensure_valid_index (df : DataFrame) (s : Series) : DataFrame :=
  match df_index df, s_values s with
  | [], _ :: _ =>
      mkDF (s_index s)
           (map (fun kv => (kv.1, replicate (length (s_index s)) (None : Cell)))
                (df_columns df))
  | _, _ => df
  end.

(** Replace the column in place when the name exists, else add it last. *)
Fixpoint set_column (name : string) (vals : list Cell)
  (cols : list (string * list Cell)) : list (string * list Cell) :=
  match cols with
  | [] => [(name, vals)]
  | (k, v) :: rest =>
      if bool_decide (k = name) then (k, vals) :: rest
      else (k, v) :: set_column name vals rest
  end.

(** [df[name] = s] for a Series [s]. *)
Definition df_setitem (df : DataFrame) (name : string) (s : Series)
  : option DataFrame :=
  let df1 := ensure_valid_index df s in
  vals ← reindex_for_setitem s (df_index df1);
  Some (mkDF (df_index df1) (set_column name vals (df_columns df1))).

(** ** Window operations on a column of a frame

    The operations as they act on the cells of a frame: which cells they
    leave missing, and their results on exact numbers.  Their results in
    binary64 are in the module [Float64] below. *)

(** [Series.shift(1)] *)
Definition shift1 (vals : list Cell) : list Cell :=
  take (length vals) (None :: vals).

(** The rows [max(0, i+1-w) .. i] of a column: the trailing window of size
    [w] that ends at position [i]. *)
Definition window {A : Type} (w i : nat) (xs : list A) : list A :=
  drop (S i - w) (take (S i) xs).

(** The observations of a window: its values that are not missing. *)
Definition observations (cells : list Cell) : list Q := omap id cells.

(** [Series.rolling(w).agg()]: [min_periods] defaults to the window size, so
    the result is missing unless the window holds [w] observations. *)
Definition rolling (w : nat) (agg : list Q → Q) (vals : list Cell) : list Cell :=
  map (fun i =>
         let obs := observations (window w i vals) in
         if (w <=? length obs)%nat && (0 <? length obs)%nat
         then Some (agg obs) else None)
      (seq 0 (length vals)).

Definition Qsum (l : list Q) : Q := foldr Qplus 0 l.

Definition agg_mean (obs : list Q) : Q :=
  Qsum obs / inject_Z (Z.of_nat (length obs)).

Definition agg_max (obs : list Q) : Q :=
  match obs with
  | [] => 0
  | x :: rest => foldl Qmax x rest
  end.

Definition agg_min (obs : list Q) : Q :=
  match obs with
  | [] => 0
  | x :: rest => foldl Qmin x rest
  end.

(** The smoothing factor of [ewm(span=s)]: the centre of mass is
    [(s-1)/2] and [alpha = 1/(1+com)], that is [2/(s+1)]. *)
Definition ewm_com (span : positive) : Q := (inject_Z (Z.pos span) - 1) / 2.
Definition ewm_alpha (span : positive) : Q := 1 / (1 + ewm_com span).

(** The loop of [ewm(adjust=False, ignore_na=False).mean()]: [weighted] is
    the running average (missing until the first observation) and [old_wt]
    the weight it carries, which decays over missing values and is reset to
    one after each observation. *)
Fixpoint ewm_loop (alpha : Q) (weighted : Cell) (old_wt : Q) (vals : list Cell)
  : list Cell :=
  match vals with
  | [] => []
  | cur :: rest =>
      match weighted with
      | Some wv =>
          let old_wt1 := old_wt * (1 - alpha) in
          match cur with
          | Some c =>
              let wv' := if Qeq_bool wv c then wv
                         else (old_wt1 * wv + alpha * c) / (old_wt1 + alpha) in
              Some wv' :: ewm_loop alpha (Some wv') 1 rest
          | None => Some wv :: ewm_loop alpha (Some wv) old_wt1 rest
          end
      | None => cur :: ewm_loop alpha cur 1 rest
      end
  end.

(** [Series.ewm(span=s, adjust=False).mean()] *)
Definition ewm_mean (span : positive) (vals : list Cell) : list Cell :=
  match vals with
  | [] => []
  | first :: rest => first :: ewm_loop (ewm_alpha span) first 1 rest
  end.

(** ** The external sources *)

(** What an HTTP call can come to: the call itself raises (unreachable
    source, timeout), or a response arrives with a status code and a body
    that parses as JSON ([Some]) or does not ([None], [resp.json()] raises). *)
Inductive HttpResult (B : Type) : Type :=
| ConnError : HttpResult B
| Http (status : Z) (body : option B) : HttpResult B.
Arguments ConnError {B}.
Arguments Http {B} status body.

(** The body of a [market_chart] response: each of the two fields may be
    absent; a present field is a sequence of [timestamp, value] rows. *)
Record ChartBody : Type := mkChart {
  prices : option (list (Z * Q));
  total_volumes : option (list (Z * Q))
}.

(** The body of a [simple/price] response: asset id, then currency code. *)
Definition PriceBody : Type := gmap string (gmap string Q).

(** ** Historical path *)

(** [pd.DataFrame(rows, columns=[c1, c2])] for two-column rows. *)
Definition frame_of_rows (c1 c2 : string) (rows : list (Z * Q)) : DataFrame :=
  mkDF (range_index (length rows))
       [(c1, map (fun r => Some (inject_Z r.1)) rows);
        (c2, map (fun r => Some r.2) rows)].

(** A column-wise operation keeps the index of the Series. *)
Definition on_values (f : list Cell → list Cell) (s : Series) : Series :=
  mkSeries (s_index s) (f (s_values s)).

(** The instants that a nanosecond datetime holds, counted in milliseconds
    from the epoch, reach [datetime_max_ms] on either side; the integer
    [datetime_nat] is read as NaT. *)
Definition datetime_max_ms : Z := 9223372036854%Z.
Definition datetime_nat : Z := (- 9223372036854775808)%Z.

(** One value of [pd.to_datetime(s, unit="ms")]: a missing value and the
    integer of NaT give NaT; an instant within the range is kept; an
    instant outside it raises [OutOfBoundsDatetime] ([None]). *)
Definition datetime_cell (c : Cell) : option Cell :=
  match c with
  | None => Some None
  | Some ms =>
      if Qeq_bool ms (inject_Z datetime_nat) then Some None
      else if Qle_bool (inject_Z (- datetime_max_ms)) ms
              && Qle_bool ms (inject_Z datetime_max_ms)
           then Some (Some ms)
           else None
  end.

(** [pd.to_datetime(s, unit="ms")]: the same instants, as datetimes; one
    instant outside the range makes the conversion raise. *)
Definition to_datetime_ms (s : Series) : option Series :=
  vals ← mapM datetime_cell (s_values s);
  Some (mkSeries (s_index s) vals).

(** Line 160: the [time] column. *)
Definition add_time (df : DataFrame) : option DataFrame :=
  ts ← getitem df "timestamp";
  instants ← to_datetime_ms ts;
  df_setitem df "time" instants.

(** Lines 161-164: the candle columns, all derived from [price]. *)
Definition synth_ohlc (df : DataFrame) : option DataFrame :=
  price ← getitem df "price";
  df ← df_setitem df "open" (on_values shift1 price);
  price ← getitem df "price";
  df ← df_setitem df "close" price;
  price ← getitem df "price";
  df ← df_setitem df "high" (on_values (rolling 2 agg_max) price);
  price ← getitem df "price";
  df_setitem df "low" (on_values (rolling 2 agg_min) price).

(** Line 165: the [volume] column, aligned on the row labels. *)
Definition add_volume (vols : list (Z * Q)) (df : DataFrame) : option DataFrame :=
  volume ← getitem (frame_of_rows "timestamp" "volume" vols) "volume";
  df_setitem df "volume" volume.

(** ** Live path: samples and buffers *)

(** One sample of a live buffer: [{"time": ..., "price": ...}]. *)
Record PricePoint : Type := mkPoint {
  time : Z;
  price : Q
}.

(** Python's truth value of a number: zero is false. *)
Definition truthy (p : Q) : bool := negb (Qeq_bool p 0).

(** [pd.DataFrame(buffer).set_index("time")["price"]] *)
Definition live_series (buffer : list PricePoint) : Series :=
  mkSeries (map time buffer) (map (fun pt => Some (price pt)) buffer).

Section Dashboard.

(** The sidebar settings and the two remote endpoints. *)
Variable selected_ids : list string.
Variable currency : string.
Variable days : string.
Variable show_ma show_ema : bool.
Variable market_chart : string → string → string → HttpResult ChartBody.
Variable simple_price : string → string → HttpResult PriceBody.
(** The reading of the clock when the sample of an asset is stamped. *)
Variable now : string → Z.

(** Lines 166-171: the indicator columns, per toggle. *)
Definition add_indicators (df : DataFrame) : option DataFrame :=
  df ← (if show_ma then
          close ← getitem df "close";
          df ← df_setitem df "MA7" (on_values (rolling 7 agg_mean) close);
          close ← getitem df "close";
          df_setitem df "MA25" (on_values (rolling 25 agg_mean) close)
        else Some df);
  if show_ema then
    close ← getitem df "close";
    df ← df_setitem df "EMA12" (on_values (ewm_mean 12) close);
    close ← getitem df "close";
    df_setitem df "EMA26" (on_values (ewm_mean 26) close)
  else Some df.

(** [get_historical_data]: every exception is caught and gives [None]. *)
Definition get_historical_data (coin_id currency days : string)
  : option DataFrame :=
  match market_chart coin_id currency days with
  | ConnError => None
  | Http status body =>
      if bool_decide (status ≠ 200%Z) then None
      else
        data ← body;
        match prices data, total_volumes data with
        | Some ps, Some vs =>
            df ← add_time (frame_of_rows "timestamp" "price" ps);
            df ← synth_ohlc df;
            df ← add_volume vs df;
            add_indicators df
        | _, _ => None
        end
  end.

(** Lines 177-181: the result collection keeps the assets with a table. *)
Definition all_hist_data : gmap string DataFrame :=
  foldl (fun acc coin_id =>
           match get_historical_data coin_id currency days with
           | Some df_hist => <[coin_id := df_hist]> acc
           | None => acc
           end) ∅ selected_ids.

(** [get_live_price]: the price of the asset in the currency, or [None]
    on any failure or when the body has no such entry. *)
Definition get_live_price (coin_id currency : string) : option Q :=
  match simple_price coin_id currency with
  | ConnError => None
  | Http status body =>
      if bool_decide (status ≠ 200%Z) then None
      else
        data ← body;
        default ∅ (data !! coin_id) !! currency
  end.

(** Line 88: one empty buffer per selected asset. *)
Definition init_live_data : gmap string (list PricePoint) :=
  list_to_map (map (fun c => (c, [])) selected_ids).

(** The loop of [update_live] over the assets still to visit.  The buffers
    are the shared state; the table is local to the tick.  A column
    assignment that raises ends the tick without a chart ([None]), the
    buffers keeping what was appended before.  Every selected asset has a
    buffer (line 88), so [live_data[coin_id]] is read with [!!!]. *)
Fixpoint update_live_loop (ids : list string)
  (live_data : gmap string (list PricePoint)) (df_plot : DataFrame)
  : gmap string (list PricePoint) * option DataFrame :=
  match ids with
  | [] => (live_data, Some df_plot)
  | coin_id :: rest =>
      match get_live_price coin_id currency with
      | Some p =>
          if truthy p then
            let live_data' :=
              <[coin_id := live_data !!! coin_id ++ [mkPoint (now coin_id) p]]>
                live_data in
            match df_setitem df_plot coin_id (live_series (live_data' !!! coin_id)) with
            | Some df_plot' => update_live_loop rest live_data' df_plot'
            | None => (live_data', None)
            end
          else update_live_loop rest live_data df_plot
      | None => update_live_loop rest live_data df_plot
      end
  end.

(** [update_live]: one tick, from a fresh table. *)
Definition update_live (live_data : gmap string (list PricePoint))
  : gmap string (list PricePoint) * option DataFrame :=
  update_live_loop selected_ids live_data empty_frame.

End Dashboard.

(** ** The rest of the page: session loop, export, catalogue *)

(** Lines 124-129: the ticks of an auto-refresh session, one after the
    other on the shared buffers.  Each tick has its own answers of the
    price endpoint and its own clock readings.  A tick that raises ends the
    session ([false]); the pause between ticks has no effect on the data. *)
Fixpoint run_ticks (selected_ids : list string) (currency : string)
  (ticks : list ((string → string → HttpResult PriceBody) * (string → Z)))
  (live_data : gmap string (list PricePoint))
  : gmap string (list PricePoint) * bool :=
  match ticks with
  | [] => (live_data, true)
  | tick :: rest =>
      match update_live selected_ids currency tick.1 tick.2 live_data with
      | (live_data', Some _) => run_ticks selected_ids currency rest live_data'
      | (live_data', None) => (live_data', false)
      end
  end.

(** [for _ in range(50): update_live()] *)
Definition auto_refresh_session (selected_ids : list string) (currency : string)
  (world : nat → (string → string → HttpResult PriceBody) * (string → Z))
  (live_data : gmap string (list PricePoint))
  : gmap string (list PricePoint) * bool :=
  run_ticks selected_ids currency (map world (seq 0 50)) live_data.

(** [df.columns] *)
Definition column_names (df : DataFrame) : list string :=
  map fst (df_columns df).

(** [df[names]] for a list of names: the listed columns in the listed
    order on the same rows; a name that is not a column is a [KeyError]. *)
Definition select_columns (names : list string) (df : DataFrame)
  : option DataFrame :=
  cols ← mapM (fun n => vals ← lookup_col n (df_columns df); Some (n, vals))
              names;
  Some (mkDF (df_index df) cols).

(** Line 230: the indicator columns the table has. *)
Definition indicator_cols (df_hist : DataFrame) : list string :=
  filter (fun col => col ∈ column_names df_hist)
         ["MA7"; "MA25"; "EMA12"; "EMA26"].

(** Lines 229-232: the table handed to the CSV writer. *)
Definition historical_export (df_hist : DataFrame) : option DataFrame :=
  let cols := ["time"; "open"; "high"; "low"; "close"; "volume"] in
  select_columns (cols ++ indicator_cols df_hist) df_hist.

(** One row of the coin list: [id], [symbol] and [name]. *)
Record CoinRow : Type := mkCoin {
  row_id : string;
  row_symbol : string;
  row_name : string
}.

Section Catalogue.

(** [str.upper] *)
Variable upper : string → string.

(** [f"{row['name']} ({row['symbol'].upper()})"] *)
Definition coin_label (row : CoinRow) : string :=
  row_name row +:+ " (" +:+ upper (row_symbol row) +:+ ")".

(** Line 38: the dict comprehension over the rows, a later row replacing an
    earlier one under the same label. *)
Definition coin_options (coins_df : list CoinRow) : gmap string string :=
  foldl (fun acc row => <[coin_label row := row_id row]> acc) ∅ coins_df.

(** Line 51: the ids of the selected labels; a label that is not a key is
    a [KeyError]. *)
Definition selected_ids_of (coins_df : list CoinRow)
  (selected_coins : list string) : option (list string) :=
  mapM (fun c => coin_options coins_df !! c) selected_coins.

End Catalogue.

(** ** The candle and indicator columns in binary64

    What lines 159-171 compute for the [price] column, value by value:
    the numbers as [json] reads them, the dtype pandas infers for the
    column, and the kernels of [shift], [rolling] and [ewm] in binary64
    arithmetic (round to nearest, ties to even). *)

Module Float64.
Import PrimFloat FloatOps SpecFloat.

(** A number of a JSON body as [json] reads it: an [int] of any size or a
    [float]. *)
Inductive Number : Type :=
| Int (z : Z)
| Float (f : float).

(** [float(z)] and the C cast of an integer to [double]: the nearest
    binary64 value, ties to even (infinite when [z] is out of range). *)
Definition of_int (z : Z) : float :=
  SF2Prim (binary_normalize prec emax z 0 false).

Definition to_float (x : Number) : float :=
  match x with
  | Int z => of_int z
  | Float f => f
  end.

(** The rational a binary64 value stands for, when it is finite. *)
Definition Q_of_float (f : float) : option Q :=
  match Prim2SF f with
  | S754_zero _ => Some 0
  | S754_finite s m e => Some (inject_Z (cond_Zopp s (Z.pos m)) * Qpower 2 e)
  | _ => None
  end.

(** The rational a number stands for. *)
Definition Number_value (x : Number) : option Q :=
  match x with
  | Int z => Some (inject_Z z)
  | Float f => Q_of_float f
  end.

(** [a <= b] as Python evaluates it: between two floats the IEEE
    comparison, between two ints the integer one, and between an int and a
    float the comparison of the exact values. *)
Definition Number_leb (a b : Number) : bool :=
  match a, b with
  | Float x, Float y => (x <=? y)%float
  | Int x, Int y => (x <=? y)%Z
  | Int x, Float y =>
      match Q_of_float y with
      | Some q => Qle_bool (inject_Z x) q
      | None => negb (is_nan y) && negb (get_sign y)
      end
  | Float x, Int y =>
      match Q_of_float x with
      | Some q => Qle_bool q (inject_Z y)
      | None => negb (is_nan x) && get_sign x
      end
  end.

(** A missing value is the float NaN. *)
Definition is_missing (x : Number) : bool :=
  match x with
  | Int _ => false
  | Float f => is_nan f
  end.

(** The dtypes a column of numbers can get: an integer dtype ([int64], or
    [uint64] with the same behaviour here), [float64], or [object]. *)
Inductive Dtype : Type := int64 | float64 | object.

Record Column : Type := mkColumn {
  col_dtype : Dtype;
  col_values : list Number
}.

Definition int_of (x : Number) : option Z :=
  match x with
  | Int z => Some z
  | Float _ => None
  end.

Definition is_float (x : Number) : bool :=
  match x with
  | Int _ => false
  | Float _ => true
  end.

(** The dtype inferred for a column of a list of rows: [object] when an
    integer fits neither [int64] nor [uint64] or the integers fit no
    single one of the two; else [float64] when a float occurs; else an
    integer dtype. *)
Definition infer_dtype (xs : list Number) : Dtype :=
  let ints := omap int_of xs in
  if existsb (fun z => (z <? - 2 ^ 63)%Z || (2 ^ 64 <=? z)%Z) ints
     || (existsb (fun z => (z <? 0)%Z) ints
         && existsb (fun z => (2 ^ 63 <=? z)%Z) ints)
  then object
  else if existsb is_float xs then float64
  else match xs with
       | [] => object
       | _ :: _ => int64
       end.

(** Line 159: the [price] column of [pd.DataFrame(data["prices"], ...)].
    In a [float64] column the integers are stored as floats. *)
Definition column_of (xs : list Number) : Column :=
  match infer_dtype xs with
  | float64 => mkColumn float64 (map (fun x => Float (to_float x)) xs)
  | dt => mkColumn dt xs
  end.

(** [Series.shift(1)]: the values move down one row and the first row is
    NaN; an integer column becomes [float64] to hold it. *)
Definition shift1 (c : Column) : Column :=
  match col_values c with
  | [] => c
  | _ :: _ =>
      match col_dtype c with
      | int64 =>
          mkColumn float64
            (take (length (col_values c))
               (Float nan :: map (fun x => Float (to_float x)) (col_values c)))
      | dt =>
          mkColumn dt
            (take (length (col_values c)) (Float nan :: col_values c))
      end
  end.

(** [ensure_float64]: the values as a [float64] array; an [int] object too
    large for a float raises [OverflowError] ([None]). *)
Definition ensure_float64 (c : Column) : option (list float) :=
  mapM (fun x =>
          match x with
          | Float f => Some f
          | Int z => if is_infinity (of_int z) then None else Some (of_int z)
          end) (col_values c).

(** [_prep_values] of the window operations: [float64] values, the
    infinite ones replaced by NaN. *)
Definition prep_values (c : Column) : option (list float) :=
  xs ← ensure_float64 c;
  Some (map (fun x => if is_infinity x then nan else x) xs).

(** [val == val]: the value is not NaN. *)
Definition is_observation (x : float) : bool := (x =? x)%float.

Definition count_observations (win : list float) : nat :=
  length (List.filter is_observation win).

(** The value at the front of the deque of [roll_max], [roll_min] once a
    later value has come in: the later one replaces the earlier one when
    it compares [>=], respectively [<=]. *)
Definition fmax (a b : float) : float := if (a <=? b)%float then b else a.
Definition fmin (a b : float) : float := if (b <=? a)%float then b else a.

Definition window_fold (f : float → float → float) (win : list float) : float :=
  match win with
  | [] => nan
  | x :: rest => foldl f x rest
  end.

(** [roll_max], [roll_min] over fixed windows, [min_periods] being the
    window size: NaN unless the window holds [w] observations. *)
Definition roll_fold (f : float → float → float) (w : nat)
  (values : list float) : list float :=
  map (fun i =>
         let win := window w i values in
         if (w <=? count_observations win)%nat && (0 <? length win)%nat
         then window_fold f win else nan)
      (seq 0 (length values)).












(** The centre of mass of [ewm(span=s)], [(s - 1) / 2], and the smoothing
    factor [alpha = 1. / (1. + com)]. *)
Definition ewm_com (span : positive) : float :=
  (of_int (Z.pos span - 1) / 2)%float.
Definition ewm_alpha (span : positive) : float :=
  (1 / (1 + ewm_com span))%float.

(** One step of the loop on an observation, from a running average that is
    a number and carries the weight [old_wt]. *)
Definition ewm_step (alpha old_wt weighted cur : float) : float :=
  if (weighted =? cur)%float then weighted
  else ((old_wt * weighted + alpha * cur) / (old_wt + alpha))%float.

(** The loop of [ewm] for [adjust=False], [ignore_na=False]. *)
Fixpoint ewm_loop (alpha weighted old_wt : float) (vals : list float)
  : list float :=
  match vals with
  | [] => []
  | cur :: rest =>
      if is_observation weighted then
        let old_wt1 := (old_wt * (1 - alpha))%float in
        if is_observation cur then
          let weighted1 := ewm_step alpha old_wt1 weighted cur in
          weighted1 :: ewm_loop alpha weighted1 1 rest
        else weighted :: ewm_loop alpha weighted old_wt1 rest
      else if is_observation cur then cur :: ewm_loop alpha cur old_wt rest
      else weighted :: ewm_loop alpha weighted old_wt rest
  end.

(** [ewm] for the mean: the first value seeds the running average. *)
Definition ewm (span : positive) (vals : list float) : list float :=
  match vals with
  | [] => []
  | first :: rest => first :: ewm_loop (ewm_alpha span) first 1 rest
  end.

(** Lines 161-164: the candle columns, all derived from [price]. *)
Record Candles : Type := mkCandles {
  open : Column;
  close : Column;
  high : Column;
  low : Column
}.

(** A window operation on a column: its kernel on the prepared values,
    the result being a [float64] column. *)
Definition rolling (kernel : list float → list float) (c : Column)
  : option Column :=
  xs ← prep_values c;
  Some (mkColumn float64 (map Float (kernel xs))).

(** The candles of the prices of a response, in the order of the source:
    [shift(1)], the column itself, [rolling(2).max()], [rolling(2).min()]. *)
Definition synth_ohlc (P : list Number) : option Candles :=
  let price := column_of P in
  let open := shift1 price in
  let close := price in
  high ← rolling (roll_fold fmax 2) price;
  low ← rolling (roll_fold fmin 2) price;
  Some (mkCandles open close high low).


(** Lines 170-171: [df["close"].ewm(span=s, adjust=False).mean()]. *)
Definition exponential_average (span : positive) (close : Column)
  : option Column :=
  rolling (ewm span) close.

End Float64.

(** ** Vocabulary of the properties *)

(** A failed fetch, as the specification lists the cases: the source is
    unreachable, the status is not the success status, or the body lacks
    one of the two fields. *)
Inductive SourceFailure : HttpResult ChartBody → Prop :=
| source_unreachable : SourceFailure ConnError
| non_success_status status body :
    status ≠ 200%Z → SourceFailure (Http status body)
| lacks_price_field status data :
    prices data = None → SourceFailure (Http status (Some data))
| lacks_volume_field status data :
    total_volumes data = None → SourceFailure (Http status (Some data)).

(** The price an asset contributes on a tick: what [get_live_price]
    returned, when the test [if price:] lets it through. *)
Definition sampled_price (simple_price : string → string → HttpResult PriceBody)
  (currency coin_id : string) : option Q :=
  match get_live_price simple_price coin_id currency with
  | Some p => if truthy p then Some p else None
  | None => None
  end.

(** The assets that contribute a sample on a tick, in selection order. *)
Definition responders (simple_price : string → string → HttpResult PriceBody)
  (currency : string) (ids : list string) : list string :=
  filter (fun c => is_Some (sampled_price simple_price currency c)) ids.

(** The assets for which [get_live_price] returned a price on a tick, in
    selection order. *)
Definition priced (simple_price : string → string → HttpResult PriceBody)
  (currency : string) (ids : list string) : list string :=
  filter (fun c => is_Some (get_live_price simple_price c currency)) ids.

(** No selected asset got the price zero on the tick. *)
Definition no_zero_price (simple_price : string → string → HttpResult PriceBody)
  (currency : string) (ids : list string) : Prop :=
  ∀ c p, c ∈ ids → get_live_price simple_price c currency = Some p → ¬ p == 0.

(** The price of the sample of a buffer stamped [t], if there is one. *)
Fixpoint sample_at (t : Z) (buffer : list PricePoint) : option Q :=
  match buffer with
  | [] => None
  | pt :: rest =>
      if bool_decide (time pt = t) then Some (price pt) else sample_at t rest
  end.

(** The table with one column per asset of [cols], whose rows are the
    timestamps of the buffer of the first of them and whose cells are the
    samples of each asset at these timestamps. *)
Definition aligned_table (cols : list string)
  (live_data : gmap string (list PricePoint)) : DataFrame :=
  match cols with
  | [] => empty_frame
  | c0 :: _ =>
      let idx := map time (live_data !!! c0) in
      mkDF idx
           (map (fun c => (c, map (fun t => sample_at t (live_data !!! c)) idx))
                cols)
  end.

(** The table assembled column by column from given buffers. *)
Fixpoint build_table (cols : list string)
  (live_data : gmap string (list PricePoint)) (df_plot : DataFrame)
  : option DataFrame :=
  match cols with
  | [] => Some df_plot
  | c :: rest =>
      df_plot' ← df_setitem df_plot c (live_series (live_data !!! c));
      build_table rest live_data df_plot'
  end.

(** All timestamps held by the buffers of the given assets. *)
Definition all_timestamps (ids : list string)
  (live_data : gmap string (list PricePoint)) : list Z :=
  concat (map (fun c => map time (live_data !!! c)) ids).

(** The indicator columns of a table, per toggle, over its close column. *)
Definition hist_indicator_columns (show_ma show_ema : bool)
  (close : list (option Q)) : list (string * list (option Q)) :=
  (if show_ma
   then [("MA7", rolling 7 agg_mean close); ("MA25", rolling 25 agg_mean close)]
   else [])
  ++ (if show_ema
      then [("EMA12", ewm_mean 12 close); ("EMA26", ewm_mean 26 close)]
      else []).


(** The [timestamp] column of a sequence of rows. *)
Definition timestamp_cells (rows : list (Z * Q)) : list (option Q) :=
  map (fun r => Some (inject_Z r.1)) rows.

(** The number of rows of the table of a response: one per price, or, when
    there is no price, one per volume. *)
Definition hist_rows (P V : list (Z * Q)) : nat :=
  match P with
  | [] => length V
  | _ :: _ => length P
  end.

(** The table of a response with both fields, written out, [times] being
    the datetimes of the price timestamps. *)
Definition hist_table (show_ma show_ema : bool) (times : list (option Q))
  (P V : list (Z * Q)) : DataFrame :=
  let n := hist_rows P V in
  let col := fun c : list (option Q) =>
    match P with
    | [] => replicate n None
    | _ :: _ => c
    end in
  let ts := col (timestamp_cells P) in
  let ps := col (map (fun r : Z * Q => Some r.2) P) in
  mkDF (range_index n)
       ([("timestamp", ts); ("price", ps); ("time", col times);
         ("open", col (shift1 ps)); ("close", ps);
         ("high", col (rolling 2 agg_max ps));
         ("low", col (rolling 2 agg_min ps));
         ("volume", map (fun i => (fun r : Z * Q => r.2) <$> V !! i) (seq 0 n))]
        ++ hist_indicator_columns show_ma show_ema ps).


(** A buffer whose stamps strictly increase. *)
Definition increasing_stamps (buffer : list PricePoint) : Prop :=
  StronglySorted Z.lt (map time buffer).

(** Column names are literals: comparisons between them are decided on the
    spot. *)
Ltac decide_names :=
  repeat match goal with
         | |- context [@bool_decide (@eq string ?a ?b) ?d] =>
             let v := eval vm_compute in (@bool_decide (a = b) d) in
             match v with
             | true => change (@bool_decide (a = b) d) with true
             | false => change (@bool_decide (a = b) d) with false
             end
         end.
Ltac frame_step := repeat (progress (cbn; decide_names)).

(** * Properties *)

Arguments df_setitem : simpl never.
Arguments shift1 : simpl never.
Arguments rolling : simpl never.
Arguments ewm_mean : simpl never.
Arguments range_index : simpl never.
Arguments add_time : simpl never.
Arguments synth_ohlc : simpl never.
Arguments add_volume : simpl never.
Arguments add_indicators : simpl never.

(** ** Column assignment *)

Lemma range_index_length n : length (range_index n) = n.
Proof. unfold range_index. by rewrite length_map, length_seq. Qed.

Lemma reindex_for_setitem_same s :
  reindex_for_setitem s (s_index s) = Some (s_values s).
Proof.
  unfold reindex_for_setitem. by rewrite bool_decide_eq_true_2.
Qed.

Lemma ensure_valid_index_same df s :
  s_index s = df_index df →
  length (s_values s) = length (s_index s) →
  ensure_valid_index df s = df.
Proof.
  intros Hidx Hlen. unfold ensure_valid_index.
  destruct (df_index df) as [|k idx]; [|done].
  rewrite Hidx in Hlen. by destruct (s_values s).
Qed.

(** Assigning a Series that carries the frame's own index stores its values
    unchanged. *)
Lemma df_setitem_aligned df name s :
  s_index s = df_index df →
  length (s_values s) = length (s_index s) →
  df_setitem df name s =
    Some (mkDF (df_index df) (set_column name (s_values s) (df_columns df))).
Proof.
  intros Hidx Hlen. unfold df_setitem.
  rewrite ensure_valid_index_same by done.
  by rewrite <- Hidx, reindex_for_setitem_same.
Qed.

Lemma shift1_length vals : length (shift1 vals) = length vals.
Proof. unfold shift1. rewrite length_take. simpl. lia. Qed.

Lemma rolling_length w agg vals : length (rolling w agg vals) = length vals.
Proof. unfold rolling. by rewrite length_map, length_seq. Qed.

(** ** Windows *)

Lemma rolling_lookup w agg vals i :
  (i < length vals)%nat →
  rolling w agg vals !! i =
    Some (let obs := observations (window w i vals) in
          if (w <=? length obs)%nat && (0 <? length obs)%nat
          then Some (agg obs) else None).
Proof.
  intros Hi. unfold rolling.
  rewrite list_lookup_fmap, lookup_seq_lt by done. done.
Qed.




(** The window of size two at a position past the first: the previous
    value and the current one. *)
Lemma window_two {A} (xs : list A) i a b :
  xs !! i = Some a → xs !! S i = Some b → window 2 (S i) xs = [a; b].
Proof.
  intros Ha Hb. unfold window.
  rewrite (take_S_r _ _ _ Hb), (take_S_r _ _ _ Ha).
  replace (S (S i) - 2)%nat with i by lia.
  rewrite <- app_assoc.
  assert (Hlen : length (take i xs) = i).
  { rewrite length_take. apply lookup_lt_Some in Ha. lia. }
  rewrite drop_app_length'; done.
Qed.



Lemma ewm_loop_length alpha rest : ∀ wv old_wt,
  length (ewm_loop alpha wv old_wt rest) = length rest.
Proof.
  induction rest as [|cur rest IH]; intros wv old_wt; [done|].
  simpl. destruct wv as [wv|]; [destruct cur as [c|]|]; simpl; by rewrite IH.
Qed.

Lemma ewm_mean_length s vals : length (ewm_mean s vals) = length vals.
Proof.
  unfold ewm_mean. destruct vals as [|v vals]; [done|].
  simpl. by rewrite ewm_loop_length.
Qed.

(** ** The time column and the candle columns *)



Lemma timestamp_cells_length (P : list (Z * Q)) :
  length (timestamp_cells P) = length P.
Proof. unfold timestamp_cells. by rewrite length_map. Qed.

(** Line 160 on the frame of the prices. *)
Lemma add_time_rows (P : list (Z * Q)) :
  add_time (frame_of_rows "timestamp" "price" P)
  = (times ← mapM datetime_cell (timestamp_cells P);
     Some (mkDF (range_index (length P))
             [("timestamp", timestamp_cells P);
              ("price", map (fun r => Some r.2) P);
              ("time", times)])).
Proof.
  unfold add_time, frame_of_rows, to_datetime_ms. frame_step.
  fold (timestamp_cells P).
  destruct (mapM datetime_cell (timestamp_cells P)) as [times|] eqn:Ht;
    [|done].
  cbn [mbind option_bind].
  apply length_mapM in Ht. rewrite timestamp_cells_length in Ht.
  rewrite df_setitem_aligned
    by (cbn; by rewrite ?range_index_length).
  by frame_step.
Qed.

(** Lines 161-164 on a frame with the three columns of lines 159-160. *)
Lemma synth_ohlc_rows n (ts ps times : list (option Q)) :
  length ps = n →
  synth_ohlc (mkDF (range_index n)
                [("timestamp", ts); ("price", ps); ("time", times)])
  = Some (mkDF (range_index n)
            [("timestamp", ts); ("price", ps); ("time", times);
             ("open", shift1 ps); ("close", ps);
             ("high", rolling 2 agg_max ps); ("low", rolling 2 agg_min ps)]).
Proof.
  intros Hps. unfold synth_ohlc.
  assert (Hlen : length ps = length (range_index n))
    by (by rewrite range_index_length).
  frame_step.
  rewrite df_setitem_aligned by (cbn; by rewrite ?shift1_length). frame_step.
  rewrite df_setitem_aligned by done. frame_step.
  rewrite df_setitem_aligned by (cbn; by rewrite ?rolling_length). frame_step.
  rewrite df_setitem_aligned by (cbn; by rewrite ?rolling_length). frame_step.
  done.
Qed.

(** ** Alignment of a positional Series on a positional frame *)

Lemma label_lookup_seq (vals : list Cell) : ∀ k i,
  label_lookup (Z.of_nat (k + i)) (map Z.of_nat (seq k (length vals))) vals
  = default None (vals !! i).
Proof.
  induction vals as [|v vals IH]; intros k i; [done|].
  simpl. destruct i as [|i].
  - rewrite Nat.add_0_r. by rewrite bool_decide_eq_true_2.
  - rewrite bool_decide_eq_false_2 by lia.
    replace (k + S i)%nat with (S k + i)%nat by lia. apply IH.
Qed.

Lemma label_lookup_range (vals : list Cell) i :
  label_lookup (Z.of_nat i) (range_index (length vals)) vals
  = default None (vals !! i).
Proof. apply (label_lookup_seq vals 0 i). Qed.

Lemma range_index_NoDup n : NoDup (range_index n).
Proof.
  unfold range_index. apply NoDup_fmap_2; [|apply NoDup_seq].
  intros a b. apply Nat2Z.inj.
Qed.

Lemma range_index_nil n : range_index n = [] → n = 0%nat.
Proof. intros H. apply (f_equal length) in H. by rewrite range_index_length in H. Qed.

(** A Series over [RangeIndex(m)] assigned to a frame over [RangeIndex(n)]
    with rows: row [i] takes the value at position [i] when there is one
    and a missing value otherwise; positions from [n] on are dropped. *)
Lemma reindex_range (vals : list Cell) n :
  (0 < n)%nat →
  reindex_for_setitem (mkSeries (range_index (length vals)) vals) (range_index n)
  = Some (map (fun i => default None (vals !! i)) (seq 0 n)).
Proof.
  intros Hn. unfold reindex_for_setitem. simpl.
  destruct (bool_decide (range_index (length vals) = range_index n)) eqn:E.
  - apply bool_decide_eq_true in E.
    assert (Hlen : length vals = n).
    { apply (f_equal length) in E. by rewrite !range_index_length in E. }
    simpl. f_equal. apply list_eq. intros i.
    rewrite list_lookup_fmap.
    destruct (decide (i < n)%nat) as [Hi|Hi].
    + rewrite lookup_seq_lt by done. simpl.
      destruct (lookup_lt_is_Some_2 vals i) as [v Hv]; [lia|]. by rewrite Hv.
    + rewrite lookup_seq_ge by lia. simpl.
      apply lookup_ge_None. lia.
  - rewrite bool_decide_eq_false_2
      by (intros H; apply range_index_nil in H; lia).
    simpl. rewrite bool_decide_eq_true_2 by apply range_index_NoDup.
    f_equal. unfold range_index at 2. rewrite map_map.
    apply map_ext. intros i. apply label_lookup_range.
Qed.

Lemma df_setitem_rows df name s :
  df_index df ≠ [] →
  df_setitem df name s =
    (vals ← reindex_for_setitem s (df_index df);
     Some (mkDF (df_index df) (set_column name vals (df_columns df)))).
Proof.
  intros Hrows. unfold df_setitem, ensure_valid_index.
  destruct (df_index df) as [|k idx] eqn:E; [done|].
  destruct (s_values s); by rewrite E.
Qed.

(** Line 165 on a frame with rows. *)
Lemma add_volume_rows (V : list (Z * Q)) n cols :
  (0 < n)%nat →
  add_volume V (mkDF (range_index n) cols) =
    Some (mkDF (range_index n)
            (set_column "volume"
               (map (fun i => (fun r : Z * Q => r.2) <$> V !! i) (seq 0 n)) cols)).
Proof.
  intros Hn. unfold add_volume, frame_of_rows. frame_step.
  rewrite df_setitem_rows
    by (cbn; intros H; apply range_index_nil in H; lia).
  cbn.
  replace (range_index (length V))
    with (range_index (length (map (fun r : Z * Q => Some r.2) V)))
    by (by rewrite length_map).
  rewrite reindex_range by done. cbn. do 3 f_equal.
  apply map_ext. intros i. rewrite list_lookup_fmap.
  by destruct (V !! i).
Qed.

(** ** The historical table of a response with both fields *)

(** The first Series assigned to a frame without rows gives it its rows;
    the columns already there become missing values. *)
Lemma df_setitem_first_rows df name s :
  df_index df = [] → s_values s ≠ [] →
  df_setitem df name s
  = Some (mkDF (s_index s)
            (set_column name (s_values s)
               (map (fun kv => (kv.1, replicate (length (s_index s)) None))
                    (df_columns df)))).
Proof.
  intros Hidx Hvals. unfold df_setitem, ensure_valid_index. rewrite Hidx.
  destruct (s_values s) as [|v vs] eqn:E; [done|]. cbn [df_index df_columns].
  rewrite reindex_for_setitem_same. by rewrite E.
Qed.

Lemma volume_cells (V : list (Z * Q)) :
  map (fun i => (fun r : Z * Q => r.2) <$> V !! i) (seq 0 (length V))
  = map (fun r : Z * Q => Some r.2) V.
Proof.
  apply list_eq. intros i. rewrite !list_lookup_fmap.
  destruct (decide (i < length V)%nat) as [Hi|Hi].
  - rewrite lookup_seq_lt by done. cbn.
    destruct (lookup_lt_is_Some_2 V i Hi) as [r Hr]. by rewrite Hr.
  - rewrite lookup_seq_ge by lia. cbn. by rewrite (lookup_ge_None_2 V i) by lia.
Qed.

Ltac frame_lengths :=
  repeat (progress (cbn; rewrite ?rolling_length, ?ewm_mean_length,
                      ?shift1_length, ?length_map, ?length_replicate,
                      ?length_seq, ?range_index_length,
                      ?timestamp_cells_length));
  done.
Ltac aligned_steps :=
  repeat (rewrite df_setitem_aligned by frame_lengths; frame_step).

(** The builder on a success response with both fields: nothing is returned
    when the conversion of the timestamps raises, and else the table
    written out in [hist_table]. *)
Lemma get_historical_data_eq show_ma show_ema chart c cur d
    (P V : list (Z * Q)) :
  chart c cur d = Http 200 (Some (mkChart (Some P) (Some V))) →
  get_historical_data show_ma show_ema chart c cur d
  = (times ← mapM datetime_cell (timestamp_cells P);
     Some (hist_table show_ma show_ema times P V)).
Proof.
  intros Hresp. unfold get_historical_data. rewrite Hresp.
  rewrite bool_decide_eq_false_2 by (intros H; by apply H).
  cbn [mbind option_bind prices total_volumes].
  rewrite add_time_rows.
  destruct (mapM datetime_cell (timestamp_cells P)) as [times|] eqn:Ht;
    [|done].
  cbn [mbind option_bind].
  assert (Htimes : length times = length P).
  { apply length_mapM in Ht. by rewrite timestamp_cells_length in Ht. }
  rewrite synth_ohlc_rows by (by rewrite length_map).
  cbn [mbind option_bind].
  destruct P as [|r P'].
  - destruct times; [|done]. destruct V as [|v V'].
    + destruct show_ma, show_ema; by vm_compute.
    + unfold add_volume, frame_of_rows. frame_step.
      rewrite df_setitem_first_rows by done. frame_step.
      unfold hist_table, hist_rows, hist_indicator_columns, add_indicators.
      rewrite range_index_length.
      pose proof (volume_cells (v :: V')) as Hvol. cbn in Hvol.
      destruct show_ma, show_ema; frame_step; aligned_steps;
        rewrite ?Hvol; done.
  - rewrite add_volume_rows by (cbn; lia).
    unfold hist_table, hist_rows, hist_indicator_columns, add_indicators.
    destruct show_ma, show_ema; frame_step; aligned_steps; done.
Qed.



(** ** The result collection *)

Lemma hist_loop_lookup cur d ma ema chart c ids :
  ∀ acc : gmap string DataFrame,
  foldl (fun (acc : gmap string DataFrame) coin_id =>
           match get_historical_data ma ema chart coin_id cur d with
           | Some df_hist => <[coin_id := df_hist]> acc
           | None => acc
           end) acc ids !! c
  = match (if bool_decide (c ∈ ids)
           then get_historical_data ma ema chart c cur d else None) with
    | Some df => Some df
    | None => acc !! c
    end.
Proof.
  induction ids as [|x ids IH]; intros acc; [done|].
  cbn. rewrite IH. clear IH.
  destruct (decide (c = x)) as [->|Hne].
  - rewrite (bool_decide_eq_true_2 (x ∈ x :: ids)) by apply list_elem_of_here.
    destruct (get_historical_data ma ema chart x cur d) as [df|] eqn:E.
    + case_bool_decide; [done|]. by rewrite lookup_insert_eq.
    + by case_bool_decide.
  - assert (Hacc :
      match get_historical_data ma ema chart x cur d with
      | Some df_hist => <[x := df_hist]> acc
      | None => acc
      end !! c = acc !! c).
    { destruct (get_historical_data ma ema chart x cur d); [|done].
      by rewrite lookup_insert_ne. }
    rewrite Hacc.
    destruct (decide (c ∈ ids)) as [Hin|Hin].
    + rewrite !bool_decide_eq_true_2; [done|by apply list_elem_of_further|done].
    + rewrite !bool_decide_eq_false_2; [done| |done].
      intros [?|?]%elem_of_cons; done.
Qed.

(** The collection holds, for a selected asset, what the builder returned
    for it, and nothing for the others. *)
Lemma all_hist_data_lookup ids cur d ma ema chart c :
  all_hist_data ids cur d ma ema chart !! c
  = if bool_decide (c ∈ ids)
    then get_historical_data ma ema chart c cur d else None.
Proof.
  unfold all_hist_data. rewrite hist_loop_lookup, lookup_empty.
  by destruct (if bool_decide (c ∈ ids) then _ else _).
Qed.

Lemma get_historical_data_failure ma ema chart c cur d :
  SourceFailure (chart c cur d) →
  get_historical_data ma ema chart c cur d = None.
Proof.
  intros Hf. unfold get_historical_data.
  destruct Hf as [|status body Hs|status data Hp|status data Hv].
  - done.
  - by rewrite bool_decide_eq_true_2.
  - case_bool_decide; [done|]. cbn. by rewrite Hp.
  - case_bool_decide; [done|]. cbn. rewrite Hv. by destruct (prices data).
Qed.

(** C5. An asset whose fetch fails (unreachable source, non-success
    status, price field or volume field lacking) gets no table from the
    builder and is absent from the result collection; when this is so for
    every selected asset, the result collection is empty. *)
Theorem C5_failed_fetch_absent ids cur d ma ema
    (chart : string → string → string → HttpResult ChartBody) :
  (∀ c, SourceFailure (chart c cur d) →
        get_historical_data ma ema chart c cur d = None ∧
        all_hist_data ids cur d ma ema chart !! c = None) ∧
  ((∀ c, c ∈ ids → SourceFailure (chart c cur d)) →
   all_hist_data ids cur d ma ema chart = ∅).
Proof.
  split.
  - intros c Hf. split; [by apply get_historical_data_failure|].
    rewrite all_hist_data_lookup, get_historical_data_failure by done.
    by case_bool_decide.
  - intros Hall. apply map_eq. intros c.
    rewrite all_hist_data_lookup, lookup_empty.
    case_bool_decide; [|done].
    apply get_historical_data_failure. by apply Hall.
Qed.

(** C5 for a response without the volume field. *)
Lemma C5_failed_fetch_absent_witness :
  let chart := fun _ _ _ : string =>
    Http 200 (Some (mkChart (Some [(1000%Z, 3)]) None)) in
  get_historical_data true true chart "bitcoin" "usd" "7" = None ∧
  all_hist_data ["bitcoin"] "usd" "7" true true chart = ∅.
Proof.
  intros chart.
  destruct (C5_failed_fetch_absent ["bitcoin"] "usd" "7" true true chart)
    as [Hone Hall].
  split.
  - apply Hone. unfold chart. by apply lacks_volume_field.
  - apply Hall. intros c _. unfold chart. by apply lacks_volume_field.
Defined.







(** ** Binary64 numbers *)

Section Binary64.
Import PrimFloat FloatOps SpecFloat FloatAxioms.
Import Float64.

Lemma SFcompare_refl s : s ≠ S754_nan → SFcompare s s = Some Eq.
Proof.
  destruct s as [[]|[]| |[] m e]; cbn; try done.
  - intros _. rewrite Z.compare_refl. by rewrite Pos.compare_cont_refl.
  - intros _. rewrite Z.compare_refl. by rewrite Pos.compare_cont_refl.
Qed.

Lemma SFcompare_antisym x y c :
  SFcompare x y = Some c → SFcompare y x = Some (CompOpp c).
Proof.
  destruct x as [[]|[]| |[] mx ex], y as [[]|[]| |[] my ey]; cbn;
    intros [= <-]; try done;
    rewrite (Z.compare_antisym ex ey);
    destruct (ex ?= ey)%Z; cbn; try done;
    rewrite ?Pos.compare_cont_antisym; cbn;
    by destruct (Pos.compare_cont Eq my mx).
Qed.

Lemma is_observation_spec x :
  is_observation x = true → Prim2SF x ≠ S754_nan.
Proof.
  unfold is_observation. rewrite eqb_spec. intros H Hnan.
  rewrite Hnan in H. done.
Qed.

(** The IEEE order on numbers: reflexive and total. *)
Lemma float_leb_refl x : is_observation x = true → (x <=? x)%float = true.
Proof.
  intros Hx. rewrite leb_spec. unfold SFleb.
  by rewrite SFcompare_refl by (by apply is_observation_spec).
Qed.

Lemma float_leb_total x y :
  is_observation x = true → is_observation y = true →
  (x <=? y)%float = false → (y <=? x)%float = true.
Proof.
  intros Hx%is_observation_spec Hy%is_observation_spec.
  rewrite !leb_spec. unfold SFleb.
  destruct (SFcompare (Prim2SF x) (Prim2SF y)) as [c|] eqn:E.
  - rewrite (SFcompare_antisym _ _ _ E). by destruct c.
  - destruct (Prim2SF x), (Prim2SF y); done.
Qed.

Lemma fmax_upper a b :
  is_observation a = true → is_observation b = true →
  (a <=? fmax a b)%float = true ∧ (b <=? fmax a b)%float = true.
Proof.
  intros Ha Hb. unfold fmax.
  destruct (a <=? b)%float eqn:E.
  - split; [done|by apply float_leb_refl].
  - split; [by apply float_leb_refl|by apply float_leb_total].
Qed.

Lemma fmin_lower a b :
  is_observation a = true → is_observation b = true →
  (fmin a b <=? a)%float = true ∧ (fmin a b <=? b)%float = true.
Proof.
  intros Ha Hb. unfold fmin.
  destruct (b <=? a)%float eqn:E.
  - split; [done|by apply float_leb_refl].
  - split; [by apply float_leb_refl|by apply float_leb_total].
Qed.

End Binary64.

(** ** The candle columns in binary64 *)

Section Candles.
Import PrimFloat FloatOps SpecFloat.
Import Float64.

Lemma is_finite_observation x : is_finite x = true → is_observation x = true.
Proof.
  unfold is_finite, is_nan, is_observation.
  by destruct (x =? x)%float.
Qed.

Lemma is_finite_not_infinity x : is_finite x = true → is_infinity x = false.
Proof.
  unfold is_finite. destruct (is_nan x), (is_infinity x); done.
Qed.

Lemma is_missing_Float x : is_missing (Float x) = negb (is_observation x).
Proof. done. Qed.

Lemma ints_of_floats (fs : list float) : omap int_of (map Float fs) = [].
Proof. induction fs as [|f fs IH]; [done|]. exact IH. Qed.

(** A column of JSON floats is stored as it is. *)
Lemma column_of_floats (fs : list float) :
  col_values (column_of (map Float fs)) = map Float fs.
Proof.
  unfold column_of, infer_dtype. rewrite ints_of_floats. cbn.
  destruct fs as [|f fs]; [done|]. cbn. f_equal.
  rewrite map_map. by apply map_ext.
Qed.

Lemma column_of_floats_dtype (fs : list float) :
  fs ≠ [] → col_dtype (column_of (map Float fs)) = float64.
Proof.
  intros Hfs. unfold column_of, infer_dtype. rewrite ints_of_floats. cbn.
  by destruct fs.
Qed.

Lemma ensure_float64_floats (c : Column) (fs : list float) :
  col_values c = map Float fs → ensure_float64 c = Some fs.
Proof.
  intros Hc. unfold ensure_float64. rewrite Hc. apply mapM_Some_2.
  clear Hc. induction fs as [|f fs IH]; cbn; by constructor.
Qed.

Lemma prep_values_floats (c : Column) (fs : list float) :
  col_values c = map Float fs →
  prep_values c = Some (map (fun x => if is_infinity x then nan else x) fs).
Proof.
  intros Hc. unfold prep_values. by rewrite (ensure_float64_floats c fs).
Qed.

Lemma prep_values_finite (c : Column) (fs : list float) :
  col_values c = map Float fs →
  Forall (fun x => is_finite x = true) fs →
  prep_values c = Some fs.
Proof.
  intros Hc Hfin. rewrite (prep_values_floats c fs Hc). f_equal. clear Hc.
  induction Hfin as [|x fs Hx _ IH]; [done|].
  cbn [map]. by rewrite (is_finite_not_infinity x Hx), IH.
Qed.

(** A window operation on a column of finite JSON floats is its kernel on
    the values. *)
Lemma rolling_finite kernel (fs : list float) :
  Forall (fun x => is_finite x = true) fs →
  rolling kernel (column_of (map Float fs))
  = Some (mkColumn float64 (map Float (kernel fs))).
Proof.
  intros Hfin. unfold rolling.
  by rewrite (prep_values_finite _ fs (column_of_floats fs) Hfin).
Qed.

Lemma shift1_floats (fs : list float) :
  col_values (shift1 (column_of (map Float fs)))
  = take (length fs) (Float nan :: map Float fs).
Proof.
  unfold shift1. rewrite column_of_floats.
  destruct fs as [|f fs]; [done|].
  rewrite column_of_floats_dtype by done.
  cbn [col_values]. by rewrite length_map.
Qed.

Lemma roll_fold_length f w xs : length (roll_fold f w xs) = length xs.
Proof. unfold roll_fold. by rewrite length_map, length_seq. Qed.

Lemma roll_fold_lookup f w xs i :
  (i < length xs)%nat →
  roll_fold f w xs !! i =
    Some (let win := window w i xs in
          if (w <=? count_observations win)%nat && (0 <? length win)%nat
          then window_fold f win else nan).
Proof.
  intros Hi. unfold roll_fold.
  by rewrite list_lookup_fmap, lookup_seq_lt by done.
Qed.

(** The first row of a window of two holds one value: no result. *)
Lemma roll_fold_two_first f xs :
  xs ≠ [] → roll_fold f 2 xs !! 0%nat = Some nan.
Proof.
  intros Hxs. destruct xs as [|x xs]; [done|].
  rewrite roll_fold_lookup by (cbn; lia).
  assert (Hwin : window 2 0 (x :: xs) = [x])
    by (unfold window; cbn; by rewrite take_0).
  cbv zeta. rewrite Hwin. unfold count_observations. cbn.
  by destruct (x =? x)%float.
Qed.

(** A later row of a window of two: the fold of the previous value and the
    current one when both are numbers. *)
Lemma roll_fold_two f xs i a b :
  xs !! i = Some a → xs !! S i = Some b →
  roll_fold f 2 xs !! S i
  = Some (if is_observation a && is_observation b then f a b else nan).
Proof.
  intros Ha Hb.
  rewrite roll_fold_lookup by (by apply lookup_lt_Some in Hb).
  cbv zeta. rewrite (window_two xs i a b Ha Hb).
  unfold count_observations, is_observation. cbn.
  by destruct (a =? a)%float, (b =? b)%float.
Qed.

(** The candles of a sequence of JSON floats. *)
Lemma synth_ohlc_floats (fs : list float) :
  let clean := fun x => if is_infinity x then nan else x in
  synth_ohlc (map Float fs)
  = Some (mkCandles (shift1 (column_of (map Float fs)))
            (column_of (map Float fs))
            (mkColumn float64 (map Float (roll_fold fmax 2 (map clean fs))))
            (mkColumn float64 (map Float (roll_fold fmin 2 (map clean fs))))).
Proof.
  intros clean. unfold synth_ohlc, rolling.
  by rewrite (prep_values_floats _ fs (column_of_floats fs)).
Qed.

Lemma shift1_floats_S (fs : list float) i :
  (S i < length fs)%nat →
  col_values (shift1 (column_of (map Float fs))) !! S i = map Float fs !! i.
Proof.
  intros Hi. rewrite shift1_floats, lookup_take_lt by done. done.
Qed.

Lemma shift1_floats_0 (fs : list float) :
  fs ≠ [] →
  col_values (shift1 (column_of (map Float fs))) !! 0%nat = Some (Float nan).
Proof.
  intros Hfs. rewrite shift1_floats. by destruct fs.
Qed.

End Candles.

Section CandleClaims.
Import PrimFloat FloatOps SpecFloat.
Import Float64.

(** C2, as stated, fails on integer prices that binary64 cannot hold:
    [shift(1)] turns the integer column into floats, so the open of the
    second row is 2^53 where the first price is 2^53 + 1. *)
Lemma C2_counterexample :
  ∃ k o q,
    synth_ohlc [Int (2 ^ 53 + 1); Int (2 ^ 53 + 1)] = Some k ∧
    col_values (close k) !! 1%nat = Some (Int (2 ^ 53 + 1)) ∧
    col_values (open k) !! 1%nat = Some o ∧
    Number_value o = Some q ∧
    q == inject_Z (2 ^ 53) ∧ ¬ q == inject_Z (2 ^ 53 + 1).
Proof.
  eexists _, _, _. split; [vm_compute; reflexivity|].
  split; [reflexivity|]. split; [reflexivity|].
  split; [vm_compute; reflexivity|]. split; [reflexivity|discriminate].
Qed.

(** C2, amended.  For every sequence of prices that are finite JSON floats,
    the four candle columns have the length of the sequence; on a
    non-empty sequence the first open, high and low are NaN (the columns
    are still produced); and on every row [i+1] past the first, close is
    [P[i+1]], open is [P[i]], high is the one of [P[i]], [P[i+1]] that is
    not below the other and low the one that is not above the other. *)
Theorem C2_ohlc_synthesizer (prices : list float) :
  Forall (fun p => is_finite p = true) prices →
  ∃ k, synth_ohlc (map Float prices) = Some k ∧
    (length (col_values (open k)) = length prices ∧
     length (col_values (close k)) = length prices ∧
     length (col_values (high k)) = length prices ∧
     length (col_values (low k)) = length prices) ∧
    (prices ≠ [] →
       col_values (open k) !! 0%nat = Some (Float nan) ∧
       col_values (high k) !! 0%nat = Some (Float nan) ∧
       col_values (low k) !! 0%nat = Some (Float nan)) ∧
    (∀ i p0 p1,
       prices !! i = Some p0 → prices !! S i = Some p1 →
       col_values (close k) !! S i = Some (Float p1) ∧
       col_values (open k) !! S i = Some (Float p0) ∧
       col_values (high k) !! S i = Some (Float (fmax p0 p1)) ∧
       col_values (low k) !! S i = Some (Float (fmin p0 p1)) ∧
       (p0 <=? fmax p0 p1)%float = true ∧ (p1 <=? fmax p0 p1)%float = true ∧
       (fmin p0 p1 <=? p0)%float = true ∧ (fmin p0 p1 <=? p1)%float = true).
Proof.
  intros Hfin. unfold synth_ohlc.
  rewrite !rolling_finite by done. cbn [mbind option_bind].
  eexists. split; [done|]. cbn [open close high low col_values].
  split; [|split].
  - rewrite shift1_floats, column_of_floats, !length_map, !roll_fold_length.
    rewrite length_take. cbn. rewrite length_map. repeat split; lia.
  - intros Hne. split; [by apply shift1_floats_0|].
    split; rewrite list_lookup_fmap, roll_fold_two_first by done; done.
  - intros i p0 p1 H0 H1.
    assert (Hlen : (S i < length prices)%nat) by (by apply lookup_lt_Some in H1).
    assert (Hobs0 : is_observation p0 = true).
    { apply is_finite_observation. rewrite Forall_forall in Hfin.
      apply Hfin. by eapply list_elem_of_lookup_2. }
    assert (Hobs1 : is_observation p1 = true).
    { apply is_finite_observation. rewrite Forall_forall in Hfin.
      apply Hfin. by eapply list_elem_of_lookup_2. }
    rewrite column_of_floats, shift1_floats_S by done.
    rewrite !list_lookup_fmap, H0, H1.
    rewrite !(roll_fold_two _ prices i p0 p1 H0 H1), Hobs0, Hobs1. cbn.
    destruct (fmax_upper p0 p1 Hobs0 Hobs1) as [? ?].
    destruct (fmin_lower p0 p1 Hobs0 Hobs1) as [? ?].
    done.
Qed.

(** C2, amended, at the prices 3, 2.5, 4. *)
Lemma C2_ohlc_synthesizer_witness :
  ∃ k, synth_ohlc [Float 3; Float 2.5; Float 4] = Some k ∧
    col_values (open k) !! 0%nat = Some (Float nan) ∧
    col_values (high k) !! 1%nat = Some (Float 3) ∧
    col_values (low k) !! 2%nat = Some (Float 2.5).
Proof.
  destruct (C2_ohlc_synthesizer [3; 2.5; 4]%float)
    as (k & Hk & _ & H0 & Hrow).
  - repeat (apply Forall_cons; split; [reflexivity|]). apply Forall_nil_2.
  - exists k. split; [exact Hk|].
    split; [apply H0; discriminate|].
    split.
    + apply (Hrow 0%nat 3%float 2.5%float); reflexivity.
    + apply (Hrow 1%nat 2.5%float 4%float); reflexivity.
Defined.

(** C8, as stated, fails on the same integer prices: the close of the
    second row is the integer 2^53 + 1, its high is the float 2^53. *)
Lemma C8_counterexample :
  ∃ k o h l c,
    synth_ohlc [Int (2 ^ 53 + 1); Int (2 ^ 53 + 1)] = Some k ∧
    col_values (open k) !! 1%nat = Some o ∧
    col_values (high k) !! 1%nat = Some h ∧
    col_values (low k) !! 1%nat = Some l ∧
    col_values (close k) !! 1%nat = Some c ∧
    is_missing o = false ∧ is_missing h = false ∧
    is_missing l = false ∧ is_missing c = false ∧
    Number_leb c h = false.
Proof.
  eexists _, _, _, _, _. split; [vm_compute; reflexivity|].
  repeat (split; [reflexivity|]). vm_compute. reflexivity.
Qed.

(** C8, amended.  For every sequence of prices that are JSON floats, on
    every row where the four candle cells are numbers, the low is at most
    the open and the close, and both are at most the high. *)
Theorem C8_candle_invariant (prices : list float) k i o h l c :
  synth_ohlc (map Float prices) = Some k →
  col_values (open k) !! i = Some o →
  col_values (high k) !! i = Some h →
  col_values (low k) !! i = Some l →
  col_values (close k) !! i = Some c →
  is_missing o = false → is_missing h = false →
  is_missing l = false → is_missing c = false →
  Number_leb l o = true ∧ Number_leb o h = true ∧
  Number_leb l c = true ∧ Number_leb c h = true.
Proof.
  intros Hk Ho Hh Hl Hc Hmo Hmh Hml Hmc.
  rewrite synth_ohlc_floats in Hk. cbv zeta in Hk. injection Hk as <-.
  cbn [open close high low col_values] in *.
  rewrite column_of_floats in Hc.
  assert (Hlen : (i < length prices)%nat).
  { apply lookup_lt_Some in Hc. by rewrite length_map in Hc. }
  destruct i as [|i].
  { rewrite shift1_floats_0 in Ho by (by destruct prices; [cbn in Hlen; lia|]).
    injection Ho as <-. done. }
  rewrite shift1_floats_S in Ho by done.
  destruct (lookup_lt_is_Some_2 prices i) as [p0 H0]; [lia|].
  destruct (lookup_lt_is_Some_2 prices (S i)) as [p1 H1]; [lia|].
  rewrite list_lookup_fmap, H0 in Ho. rewrite list_lookup_fmap, H1 in Hc.
  injection Ho as <-. injection Hc as <-.
  rewrite is_missing_Float in Hmo, Hmc.
  apply negb_false_iff in Hmo, Hmc.
  set (clean := fun x : float => if is_infinity x then nan else x) in *.
  assert (Hc0 : map clean prices !! i = Some (clean p0))
    by (by rewrite list_lookup_fmap, H0).
  assert (Hc1 : map clean prices !! S i = Some (clean p1))
    by (by rewrite list_lookup_fmap, H1).
  rewrite list_lookup_fmap, (roll_fold_two _ _ i _ _ Hc0 Hc1) in Hh.
  rewrite list_lookup_fmap, (roll_fold_two _ _ i _ _ Hc0 Hc1) in Hl.
  cbn [fmap option_fmap option_map] in Hh, Hl.
  injection Hh as <-. injection Hl as <-.
  assert (Hclean : ∀ p, is_observation p = true →
                        is_observation (clean p) = true → clean p = p).
  { intros p Hp Hcp. unfold clean in *. by destruct (is_infinity p). }
  destruct (is_observation (clean p0)) eqn:E0;
    [|vm_compute in Hmh; discriminate Hmh].
  destruct (is_observation (clean p1)) eqn:E1;
    [|vm_compute in Hmh; discriminate Hmh].
  rewrite (Hclean p0), (Hclean p1) by done. cbn.
  destruct (fmax_upper p0 p1 Hmo Hmc) as [? ?].
  destruct (fmin_lower p0 p1 Hmo Hmc) as [? ?].
  done.
Qed.

(** C8, amended, on the second row of the prices 3, 2.5. *)
Lemma C8_candle_invariant_witness :
  Number_leb (Float 2.5) (Float 3) = true ∧
  Number_leb (Float 3) (Float 3) = true ∧
  Number_leb (Float 2.5) (Float 2.5) = true ∧
  Number_leb (Float 2.5) (Float 3) = true.
Proof.
  eapply (C8_candle_invariant [3; 2.5]%float _ 1%nat);
    vm_compute; reflexivity.
Defined.

End CandleClaims.

Section Averages.
Import PrimFloat FloatOps SpecFloat.
Import Float64.

(** ** Exponential moving average *)

Lemma ewm_float_loop_length alpha vals : ∀ weighted old_wt,
  length (ewm_loop alpha weighted old_wt vals) = length vals.
Proof.
  induction vals as [|cur vals IH]; intros weighted old_wt; [done|].
  cbn [ewm_loop].
  destruct (is_observation weighted), (is_observation cur); cbn;
    by rewrite IH.
Qed.

Lemma ewm_length s vals : length (ewm s vals) = length vals.
Proof.
  destruct vals as [|v vals]; [done|]. cbn. by rewrite ewm_float_loop_length.
Qed.

(** On observations only, the running average carries the weight one into
    every step, and each output that follows a number is one step of the
    recurrence from it. *)
Lemma ewm_float_recurrence alpha vals : ∀ weighted i c prev,
  Forall (fun x => is_observation x = true) vals →
  vals !! i = Some c →
  (weighted :: ewm_loop alpha weighted 1 vals) !! i = Some prev →
  is_observation prev = true →
  ewm_loop alpha weighted 1 vals !! i
  = Some (ewm_step alpha (1 * (1 - alpha)) prev c).
Proof.
  induction vals as [|cur vals IH]; intros weighted i c prev Hobs Hi Hp Hprev;
    [done|].
  apply Forall_cons in Hobs as [Hcur Hobs].
  destruct i as [|i].
  - cbn in Hi, Hp. injection Hi as ->. injection Hp as ->.
    cbn [ewm_loop]. by rewrite Hprev, Hcur.
  - cbn [ewm_loop] in Hp |- *. rewrite Hcur in Hp |- *.
    destruct (is_observation weighted);
      (apply (IH _ i c prev Hobs Hi); [exact Hp|exact Hprev]).
Qed.

Lemma ewm_step_fixed alpha old_wt c :
  is_observation c = true → ewm_step alpha old_wt c c = c.
Proof. intros Hc. unfold ewm_step, is_observation in *. by rewrite Hc. Qed.

Lemma ewm_loop_constant alpha c vals :
  is_observation c = true →
  Forall (fun x => x = c) vals →
  Forall (fun x => x = c) (ewm_loop alpha c 1 vals).
Proof.
  intros Hc. induction 1 as [|x vals -> _ IH]; [by constructor|].
  cbn [ewm_loop]. rewrite Hc, ewm_step_fixed by done.
  by constructor.
Qed.

(** C3, as stated, fails: on the closes 1, 2 with the span 12 the second
    value is a binary64 number, not 15/13. *)
Lemma C3_counterexample :
  ∃ e q,
    exponential_average 12 (column_of [Float 1; Float 2])
    = Some (mkColumn float64 [Float 1; Float e]) ∧
    Q_of_float e = Some q ∧
    ¬ q == (2 # 13) * 2 + (1 - (2 # 13)) * 1.
Proof.
  eexists _, _. split; [vm_compute; reflexivity|].
  split; [vm_compute; reflexivity|]. vm_compute. discriminate.
Qed.

(** C3, amended.  For every sequence of closes that are finite JSON floats
    and every span [s], with [a] the binary64 value [1 / (1 + (s-1)/2)]:
    the average has one value per close; the first one is the first close;
    every value that follows a number is that number when the close equals
    it, and else the binary64 result of
    [((1-a) * EMA[i-1] + a * close[i]) / ((1-a) + a)]; and when all closes
    are the same number, so are all values of the average. *)
Theorem C3_exponential_moving_average (closes : list float) (s : positive) :
  Forall (fun c => is_finite c = true) closes →
  let a := ewm_alpha s in
  ∃ ema,
    exponential_average s (column_of (map Float closes))
    = Some (mkColumn float64 (map Float ema)) ∧
    length ema = length closes ∧
    (∀ c0, closes !! 0%nat = Some c0 → ema !! 0%nat = Some c0) ∧
    (∀ i c prev,
       closes !! S i = Some c → ema !! i = Some prev → is_nan prev = false →
       ema !! S i = Some (ewm_step a (1 * (1 - a)) prev c)) ∧
    (∀ c, Forall (fun x => x = c) closes → Forall (fun x => x = c) ema).
Proof.
  intros Hfin a. exists (ewm s closes).
  split; [by apply rolling_finite|]. split; [apply ewm_length|].
  assert (Hobs : Forall (fun x => is_observation x = true) closes).
  { eapply Forall_impl; [exact Hfin|]. apply is_finite_observation. }
  split; [|split].
  - intros c0 H0. destruct closes as [|c0' rest]; [done|].
    cbn in H0. by injection H0 as ->.
  - intros i c prev Hi Hp Hprev.
    destruct closes as [|c0 rest]; [done|].
    apply Forall_cons in Hobs as [_ Hobs].
    cbn in Hi. unfold ewm in *.
    change ((c0 :: ewm_loop (ewm_alpha s) c0 1 rest) !! S i)
      with (ewm_loop (ewm_alpha s) c0 1 rest !! i).
    apply ewm_float_recurrence; [done|done|done|].
    unfold is_nan in Hprev. unfold is_observation.
    by destruct (prev =? prev)%float.
  - intros c Hall. destruct closes as [|c0 rest]; [done|].
    apply Forall_cons in Hall as [-> Hall].
    apply Forall_cons in Hobs as [Hc _].
    unfold ewm. apply Forall_cons. split; [done|].
    by apply ewm_loop_constant.
Qed.

(** C3, amended, on the closes 1, 2 with the span 12, where [a] is the
    binary64 value of 2/13, and on the constant closes 10, 10, 10. *)
Lemma C3_exponential_moving_average_witness :
  ewm_alpha 12 = (2 / 13)%float ∧
  (∃ ema,
     exponential_average 12 (column_of [Float 1; Float 2])
     = Some (mkColumn float64 (map Float ema)) ∧
     ema !! 1%nat
     = Some (ewm_step (ewm_alpha 12) (1 * (1 - ewm_alpha 12)) 1 2)) ∧
  (∃ ema,
     exponential_average 12 (column_of [Float 10; Float 10; Float 10])
     = Some (mkColumn float64 (map Float ema)) ∧
     Forall (fun x => x = 10%float) ema).
Proof.
  split; [vm_compute; reflexivity|]. split.
  - destruct (C3_exponential_moving_average [1; 2]%float 12)
      as (ema & Hema & _ & H0 & Hrec & _).
    + repeat (apply Forall_cons; split; [reflexivity|]). apply Forall_nil_2.
    + exists ema. split; [exact Hema|].
      apply (Hrec 0%nat 2%float 1%float);
        [reflexivity|by apply H0|reflexivity].
  - destruct (C3_exponential_moving_average [10; 10; 10]%float 12)
      as (ema & Hema & _ & _ & _ & Hconst).
    + repeat (apply Forall_cons; split; [reflexivity|]). apply Forall_nil_2.
    + exists ema. split; [exact Hema|]. apply Hconst.
      repeat (apply Forall_cons; split; [reflexivity|]). apply Forall_nil_2.
Defined.

End Averages.

Section MovingAverage.
Import PrimFloat FloatOps SpecFloat.
Import Float64.

(** ** Simple moving average *)





(** *** No value before the window is full *)








(** *** Only the closes up to the row are read *)







(** *** Constant closes *)

Section Constant.

Variable c : float.
Hypothesis c_observation : is_observation c = true.








End Constant.




End MovingAverage.

(** ** Live path: one tick *)

Section Tick.

Variable currency : string.
Variable simple_price : string → string → HttpResult PriceBody.
Variable now : string → Z.

Abbreviation loop := (update_live_loop currency simple_price now).
Abbreviation sampled := (sampled_price simple_price currency).

(** The loop, by what the asset at hand contributes. *)
Lemma update_live_loop_cons c rest (ld : gmap string (list PricePoint)) df :
  loop (c :: rest) ld df =
    match sampled c with
    | Some p =>
        let ld' := <[c := ld !!! c ++ [mkPoint (now c) p]]> ld in
        match df_setitem df c (live_series (ld' !!! c)) with
        | Some df' => loop rest ld' df'
        | None => (ld', None)
        end
    | None => loop rest ld df
    end.
Proof.
  unfold sampled_price. simpl.
  destruct (get_live_price simple_price c currency) as [p|]; [|done].
  by destruct (truthy p).
Qed.

(** A tick leaves alone the buffer of an asset that is not visited or that
    contributes nothing. *)
Lemma update_live_loop_untouched c rest :
  ∀ (ld : gmap string (list PricePoint)) df,
  c ∉ rest ∨ sampled c = None →
  (loop rest ld df).1 !! c = ld !! c.
Proof.
  induction rest as [|x rest IH]; intros ld df Hc; [done|].
  assert (Hc' : c ∉ rest ∨ sampled c = None).
  { destruct Hc as [Hc|Hc]; [left|by right].
    by apply not_elem_of_cons in Hc as [_ ?]. }
  rewrite update_live_loop_cons.
  destruct (sampled x) as [p|] eqn:Hx; [|by apply IH].
  assert (Hne : x ≠ c).
  { intros ->. destruct Hc as [Hc|Hc]; [|congruence].
    apply Hc, list_elem_of_here. }
  cbv zeta. destruct (df_setitem _ _ _) as [df'|].
  - rewrite IH by done. by rewrite lookup_insert_ne.
  - simpl. by rewrite lookup_insert_ne.
Qed.

Lemma update_live_loop_untouched_total c rest
    (ld : gmap string (list PricePoint)) df :
  c ∉ rest ∨ sampled c = None →
  (loop rest ld df).1 !!! c = ld !!! c.
Proof.
  intros Hc. rewrite !lookup_total_alt.
  by rewrite update_live_loop_untouched.
Qed.

(** Reading a buffer's Series at a label is reading the buffer at that
    timestamp. *)
Lemma label_lookup_sample t (buffer : list PricePoint) :
  label_lookup t (s_index (live_series buffer)) (s_values (live_series buffer))
  = sample_at t buffer.
Proof.
  induction buffer as [|pt buffer IH]; [done|].
  simpl. case_bool_decide; [done|]. exact IH.
Qed.

(** With distinct timestamps, the samples of a buffer read at its own
    timestamps are its prices in order. *)
Lemma sample_at_own (buffer : list PricePoint) :
  NoDup (map time buffer) →
  map (fun t => sample_at t buffer) (map time buffer)
  = map (fun pt => Some (price pt)) buffer.
Proof.
  induction buffer as [|pt buffer IH]; intros Hnd; [done|].
  simpl in *. apply NoDup_cons in Hnd as [Hnotin Hnd].
  rewrite bool_decide_eq_true_2 by done. f_equal.
  rewrite <- IH by done. apply map_ext_in. intros t Ht.
  rewrite bool_decide_eq_false_2; [done|].
  intros Heq. apply Hnotin. rewrite Heq. by apply list_elem_of_In.
Qed.

Lemma reindex_live (buffer : list PricePoint) idx :
  NoDup (map time buffer) →
  reindex_for_setitem (live_series buffer) idx
  = Some (if bool_decide (idx = []) then s_values (live_series buffer)
          else map (fun t => sample_at t buffer) idx).
Proof.
  intros Hnd. unfold reindex_for_setitem.
  destruct (bool_decide (idx = [])) eqn:Hidx.
  - by rewrite orb_true_r.
  - rewrite orb_false_r. clear Hidx.
    destruct (decide (s_index (live_series buffer) = idx)) as [Heq|Hne].
    + rewrite bool_decide_eq_true_2 by done.
      f_equal. rewrite <- Heq. simpl. by rewrite sample_at_own.
    + rewrite bool_decide_eq_false_2 by done.
      rewrite bool_decide_eq_true_2 by done. f_equal.
      apply map_ext. intros t. apply label_lookup_sample.
Qed.

Lemma set_column_fresh c vals cols :
  c ∉ map fst cols → set_column c vals cols = cols ++ [(c, vals)].
Proof.
  induction cols as [|[k v] cols IH]; intros Hc; [done|].
  simpl in *. apply not_elem_of_cons in Hc as [Hne Hc].
  rewrite bool_decide_eq_false_2 by done. by rewrite IH.
Qed.

(** Adding the column of one more asset to the table of the assets seen:
    the result is the table of all of them, on the same rows. *)
Lemma df_setitem_aligned_table seen c (ld : gmap string (list PricePoint)) :
  c ∉ seen →
  ld !!! c ≠ [] →
  (∀ c0, head seen = Some c0 → ld !!! c0 ≠ []) →
  NoDup (map time (ld !!! c)) →
  df_setitem (aligned_table seen ld) c (live_series (ld !!! c))
  = Some (aligned_table (seen ++ [c]) ld).
Proof.
  intros Hc Hbuf Hhead Hnd.
  destruct seen as [|c0 seen].
  - unfold df_setitem, ensure_valid_index. simpl.
    destruct (ld !!! c) as [|pt buffer] eqn:E; [done|].
    simpl. rewrite reindex_live by done.
    by rewrite bool_decide_eq_false_2 by done.
  - assert (Hrows : map time (ld !!! c0) ≠ []).
    { specialize (Hhead c0 eq_refl). by destruct (ld !!! c0). }
    rewrite df_setitem_rows by exact Hrows.
    change (df_index (aligned_table (c0 :: seen) ld))
      with (map time (ld !!! c0)).
    rewrite reindex_live by done.
    rewrite (bool_decide_eq_false_2 (map time (ld !!! c0) = [])) by exact Hrows.
    change (df_columns (aligned_table (c0 :: seen) ld))
      with (map (fun c => (c, map (fun t => sample_at t (ld !!! c))
                                  (map time (ld !!! c0)))) (c0 :: seen)).
    cbn [mbind option_bind].
    rewrite set_column_fresh.
    + unfold aligned_table. simpl. by rewrite map_app.
    + by rewrite map_map, map_id.
Qed.

Lemma aligned_table_ext cols (ld1 ld2 : gmap string (list PricePoint)) :
  (∀ c, c ∈ cols → ld1 !!! c = ld2 !!! c) →
  aligned_table cols ld1 = aligned_table cols ld2.
Proof.
  intros Hext. destruct cols as [|c0 cols]; [done|].
  unfold aligned_table.
  rewrite (Hext c0) by apply list_elem_of_here. f_equal.
  apply map_ext_in. intros c Hc. apply list_elem_of_In in Hc.
  by rewrite (Hext c).
Qed.

Lemma responders_cons_Some c rest p :
  sampled c = Some p →
  responders simple_price currency (c :: rest)
  = c :: responders simple_price currency rest.
Proof. intros H. unfold responders. rewrite filter_cons_True; [done|]. by rewrite H. Qed.

Lemma responders_cons_None c rest :
  sampled c = None →
  responders simple_price currency (c :: rest)
  = responders simple_price currency rest.
Proof.
  intros H. unfold responders. rewrite filter_cons_False; [done|].
  rewrite H. apply is_Some_None.
Qed.

(** The loop started on the table of the assets seen ends, when the stamps
    of each buffer it leaves are distinct, on the table of the assets seen
    and of those that contributed since. *)
Lemma update_live_loop_table rest :
  ∀ seen (ld : gmap string (list PricePoint)),
  NoDup (seen ++ rest) →
  (∀ c0, head seen = Some c0 → ld !!! c0 ≠ []) →
  (∀ c, c ∈ rest →
        NoDup (map time ((loop rest ld (aligned_table seen ld)).1 !!! c))) →
  (loop rest ld (aligned_table seen ld)).2
  = Some (aligned_table (seen ++ responders simple_price currency rest)
            (loop rest ld (aligned_table seen ld)).1).
Proof.
  induction rest as [|x rest IH]; intros seen ld Hnd Hhead Hstamps.
  { simpl. by rewrite app_nil_r. }
  assert (Hx : (x ∉ seen) ∧ (x ∉ rest) ∧ NoDup (seen ++ rest)).
  { apply NoDup_app in Hnd as (Hs & Hdisj & Hr).
    apply NoDup_cons in Hr as [Hxr Hr].
    split; [|split; [done|]].
    - intros Hin. apply (Hdisj x Hin), list_elem_of_here.
    - apply NoDup_app. split; [done|]. split; [|done].
      intros y Hy Hyr. apply (Hdisj y Hy). by apply list_elem_of_further. }
  destruct Hx as (Hxs & Hxr & Hnd').
  pose proof (Hstamps x (list_elem_of_here _ _)) as Hsx.
  rewrite update_live_loop_cons in Hsx, Hstamps |- *.
  destruct (sampled x) as [p|] eqn:Hp.
  - rewrite (responders_cons_Some x rest p Hp).
    cbv zeta in Hsx, Hstamps |- *.
    set (ld1 := <[x := ld !!! x ++ [mkPoint (now x) p]]> ld) in *.
    assert (Hold : ∀ c, c ≠ x → ld1 !!! c = ld !!! c).
    { intros c Hc. unfold ld1. by rewrite lookup_total_insert_ne. }
    assert (Hbuf : ld1 !!! x ≠ []).
    { unfold ld1. rewrite lookup_total_insert_eq. by destruct (ld !!! x). }
    assert (Htab : aligned_table seen ld = aligned_table seen ld1).
    { apply aligned_table_ext. intros c Hc. symmetry. apply Hold.
      by intros ->. }
    rewrite Htab in Hsx, Hstamps |- *.
    assert (Hndx : NoDup (map time (ld1 !!! x))).
    { destruct (df_setitem (aligned_table seen ld1) x (live_series (ld1 !!! x)));
        [|done].
      by rewrite update_live_loop_untouched_total in Hsx by (by left). }
    assert (Hhead1 : ∀ c0, head seen = Some c0 → ld1 !!! c0 ≠ []).
    { intros c0 Hc0. rewrite Hold; [by apply Hhead|].
      intros ->. apply Hxs. destruct seen; [done|].
      simpl in Hc0. injection Hc0 as <-. apply list_elem_of_here. }
    pose proof (df_setitem_aligned_table seen x ld1 Hxs Hbuf Hhead1 Hndx)
      as Hset.
    rewrite Hset in Hstamps |- *.
    replace (seen ++ x :: responders simple_price currency rest)
      with ((seen ++ [x]) ++ responders simple_price currency rest)
      by (by rewrite <- app_assoc).
    apply IH.
    + by rewrite <- app_assoc.
    + intros c0 Hc0. destruct seen as [|s0 seen].
      * simpl in Hc0. by injection Hc0 as <-.
      * apply Hhead1. exact Hc0.
    + intros c Hc. apply Hstamps. by apply list_elem_of_further.
  - rewrite (responders_cons_None x rest Hp).
    apply IH; [done..|].
    intros c Hc. apply Hstamps. by apply list_elem_of_further.
Qed.

(** Whether or not a column assignment raises, the chart of a tick is the
    table assembled from the buffers the tick leaves, over the assets that
    contributed. *)
Lemma update_live_loop_build rest :
  ∀ (ld : gmap string (list PricePoint)) df,
  NoDup rest →
  (loop rest ld df).2
  = build_table (responders simple_price currency rest) (loop rest ld df).1 df.
Proof.
  induction rest as [|x rest IH]; intros ld df Hnd; [done|].
  apply NoDup_cons in Hnd as [Hxr Hnd].
  rewrite update_live_loop_cons.
  destruct (sampled x) as [p|] eqn:Hp.
  - rewrite (responders_cons_Some x rest p Hp). cbv zeta.
    set (ld1 := <[x := ld !!! x ++ [mkPoint (now x) p]]> ld).
    destruct (df_setitem df x (live_series (ld1 !!! x))) as [df'|] eqn:Hset.
    + simpl. rewrite update_live_loop_untouched_total by (by left).
      rewrite Hset. simpl. by apply IH.
    + simpl. by rewrite Hset.
  - rewrite (responders_cons_None x rest Hp). by apply IH.
Qed.

(** On a tick that ends with a chart, an asset that contributes gets its
    sample appended. *)
Lemma update_live_loop_appends c p rest :
  ∀ (ld : gmap string (list PricePoint)) df,
  NoDup rest → c ∈ rest → sampled c = Some p →
  (loop rest ld df).2 ≠ None →
  (loop rest ld df).1 !!! c = ld !!! c ++ [mkPoint (now c) p].
Proof.
  induction rest as [|x rest IH]; intros ld df Hnd Hin Hp Hok.
  { by apply elem_of_nil in Hin. }
  apply NoDup_cons in Hnd as [Hxr Hnd].
  rewrite update_live_loop_cons in Hok |- *.
  destruct (decide (x = c)) as [->|Hne].
  - rewrite Hp in Hok |- *. cbv zeta in Hok |- *.
    destruct (df_setitem _ _ _) as [df'|]; [|done].
    rewrite update_live_loop_untouched_total by (by left).
    by rewrite lookup_total_insert_eq.
  - apply elem_of_cons in Hin as [->|Hin]; [done|].
    destruct (sampled x) as [q|]; [|by apply IH].
    cbv zeta in Hok |- *.
    destruct (df_setitem _ _ _) as [df'|]; [|done].
    rewrite IH by done. by rewrite lookup_total_insert_ne.
Qed.

End Tick.

Lemma aligned_table_names cols (ld : gmap string (list PricePoint)) :
  map fst (df_columns (aligned_table cols ld)) = cols.
Proof.
  destruct cols as [|c0 cols]; [done|].
  unfold aligned_table. cbn [df_columns]. by rewrite map_map, map_id.
Qed.

Lemma lookup_col_tabulate (f : string → list (option Q)) c cols :
  c ∈ cols → lookup_col c (map (fun c => (c, f c)) cols) = Some (f c).
Proof.
  induction cols as [|x cols IH]; intros Hc; [by apply elem_of_nil in Hc|].
  simpl. case_bool_decide as Hx; [by subst|].
  apply elem_of_cons in Hc as [->|Hc]; [done|]. by apply IH.
Qed.

Lemma aligned_table_cell cols (ld : gmap string (list PricePoint)) c i t :
  c ∈ cols → df_index (aligned_table cols ld) !! i = Some t →
  df_cell (aligned_table cols ld) c i = Some (sample_at t (ld !!! c)).
Proof.
  intros Hc Hi. destruct cols as [|c0 cols]; [by apply elem_of_nil in Hc|].
  unfold aligned_table, df_cell in *. cbn [df_columns df_index] in *.
  rewrite (lookup_col_tabulate
             (fun c => map (fun t => sample_at t (ld !!! c))
                           (map time (ld !!! c0)))) by done.
  cbn [mbind option_bind]. by rewrite list_lookup_fmap, Hi.
Qed.

(** A buffer has a sample at [t] exactly when [t] is one of its stamps. *)
Lemma sample_at_is_Some t (buffer : list PricePoint) :
  is_Some (sample_at t buffer) ↔ t ∈ map time buffer.
Proof.
  induction buffer as [|pt buffer IH]; simpl.
  - split; [by intros [? ?]|by intros ?%elem_of_nil].
  - rewrite elem_of_cons. case_bool_decide as Hpt.
    + split; [by left|by eexists].
    + rewrite IH. split; [by right|]. by intros [?|?].
Qed.

(** ** The aligned live table *)

(** When no asset returned the price zero, the assets that contribute are
    those that returned a price. *)
Lemma responders_priced
    (simple_price : string → string → HttpResult PriceBody) cur ids :
  no_zero_price simple_price cur ids →
  responders simple_price cur ids = priced simple_price cur ids.
Proof.
  unfold no_zero_price, responders, priced.
  induction ids as [|x ids IH]; intros Hnz; [done|].
  assert (Hrest : ∀ c p, c ∈ ids →
            get_live_price simple_price c cur = Some p → ¬ p == 0).
  { intros c p Hc. apply Hnz. by apply list_elem_of_further. }
  assert (Hx : is_Some (sampled_price simple_price cur x)
               ↔ is_Some (get_live_price simple_price x cur)).
  { unfold sampled_price, truthy.
    destruct (get_live_price simple_price x cur) as [p|] eqn:Hp; [|done].
    destruct (Qeq_bool p 0) eqn:E; [|done].
    apply Qeq_bool_iff in E.
    destruct (Hnz x p (list_elem_of_here _ _) Hp E). }
  destruct (decide (is_Some (get_live_price simple_price x cur))) as [Hs|Hs].
  - rewrite filter_cons_True by (by apply Hx).
    rewrite filter_cons_True by exact Hs. by rewrite IH.
  - rewrite filter_cons_False by (by rewrite Hx).
    rewrite filter_cons_False by exact Hs. by apply IH.
Qed.

(** C1, as stated, fails.  Assets B and A are selected in this order.  On
    a first tick only A has a price and is stamped 100; on a second tick
    both have one, B is stamped 200 and A 201.  The buffers then hold the
    stamps 100, 200 and 201, and the rows of the chart are those of B: the
    stamp 100 is not a row. *)
Lemma C1_counterexample :
  let first_prices := fun _ _ : string =>
    Http 200 (Some ({[ "A" := {[ "usd" := 5 ]} ]} : PriceBody)) in
  let second_prices := fun _ _ : string =>
    Http 200 (Some ({[ "A" := {[ "usd" := 6 ]}; "B" := {[ "usd" := 7 ]} ]}
                    : PriceBody)) in
  let second_clock := fun c : string =>
    if bool_decide (c = "B") then 200%Z else 201%Z in
  let first := update_live ["B"; "A"] "usd" first_prices (fun _ => 100%Z)
                 (init_live_data ["B"; "A"]) in
  let second := update_live ["B"; "A"] "usd" second_prices second_clock
                  first.1 in
  second.1 !!! "A" = [mkPoint 100 5; mkPoint 201 6] ∧
  second.1 !!! "B" = [mkPoint 200 7] ∧
  ∃ df, second.2 = Some df ∧
        ¬ (∀ t, t ∈ df_index df ↔ t ∈ all_timestamps ["B"; "A"] second.1).
Proof.
  intros first_prices second_prices second_clock first second.
  split; [by vm_compute|]. split; [by vm_compute|].
  eexists. split; [by vm_compute|].
  intros Hunion.
  assert (Hin : 100%Z ∈ all_timestamps ["B"; "A"] second.1).
  { vm_compute. apply list_elem_of_further, list_elem_of_here. }
  apply Hunion in Hin. vm_compute in Hin.
  apply list_elem_of_singleton in Hin. discriminate.
Qed.

(** C1, amended.  On a tick over distinct assets on which no asset returned
    the price zero and which leaves every buffer with distinct stamps, the
    chart is a table whose columns are the assets that returned a price on
    the tick, in selection order; whose rows are the stamps of the buffer
    of the first of them (no rows when none returned a price); and whose
    cell for a column asset at a row is that asset's sample at the row's
    stamp, defined exactly when the asset was sampled at that stamp. *)
Theorem C1_aligned_live_table ids cur
    (simple_price : string → string → HttpResult PriceBody) now
    (ld : gmap string (list PricePoint)) :
  NoDup ids →
  no_zero_price simple_price cur ids →
  (∀ c, c ∈ ids →
        NoDup (map time ((update_live ids cur simple_price now ld).1 !!! c))) →
  let ld' := (update_live ids cur simple_price now ld).1 in
  let cols := priced simple_price cur ids in
  ∃ df, (update_live ids cur simple_price now ld).2 = Some df ∧
    map fst (df_columns df) = cols ∧
    df_index df = match cols with
                  | [] => []
                  | c0 :: _ => map time (ld' !!! c0)
                  end ∧
    (∀ c i t, c ∈ cols → df_index df !! i = Some t →
              df_cell df c i = Some (sample_at t (ld' !!! c))) ∧
    (∀ c t, is_Some (sample_at t (ld' !!! c)) ↔ t ∈ map time (ld' !!! c)).
Proof.
  intros Hnd Hnz Hstamps ld' cols.
  pose proof (update_live_loop_table cur simple_price now ids [] ld) as Htab.
  simpl in Htab. unfold update_live, ld', cols in *.
  change (aligned_table [] ld) with empty_frame in Htab.
  rewrite Htab by done. rewrite (responders_priced _ _ _ Hnz).
  eexists. split; [done|]. split; [|split; [|split]].
  - apply aligned_table_names.
  - by destruct (priced simple_price cur ids).
  - intros c i t Hc Hi. by apply aligned_table_cell.
  - intros c t. apply sample_at_is_Some.
Qed.

(** C1, amended, on the example of the claim: asset A, listed first, holds
    the stamps 100 and 200, asset B the stamp 200 only.  The rows are 100
    and 200; the cell of B is missing at 100 and defined at 200. *)
Lemma C1_aligned_live_table_witness :
  let simple_price := fun _ _ : string =>
    Http 200 (Some ({[ "A" := {[ "usd" := 6 ]}; "B" := {[ "usd" := 7 ]} ]}
                    : PriceBody)) in
  let before : gmap string (list PricePoint) :=
    {[ "A" := [mkPoint 100 5]; "B" := [] ]} in
  let tick := update_live ["A"; "B"] "usd" simple_price (fun _ => 200%Z) before in
  ∃ df, tick.2 = Some df ∧
        df_index df = [100%Z; 200%Z] ∧
        df_cell df "B" 0 = Some None ∧
        df_cell df "B" 1 = Some (Some 7).
Proof.
  intros simple_price before tick.
  destruct (C1_aligned_live_table ["A"; "B"] "usd" simple_price
              (fun _ => 200%Z) before)
    as (df & Hdf & _ & Hidx & Hcell & _).
  - apply (bool_decide_unpack _). vm_compute. exact I.
  - intros c p Hc Hp Hz.
    repeat (apply elem_of_cons in Hc as [->|Hc]);
      [vm_compute in Hp; injection Hp as <-; vm_compute in Hz;
       discriminate Hz..
      |by apply elem_of_nil in Hc].
  - intros c Hc. apply (bool_decide_unpack _).
    repeat (apply elem_of_cons in Hc as [->|Hc]);
      [vm_compute; exact I..|by apply elem_of_nil in Hc].
  - exists df. split; [exact Hdf|].
    assert (Hrows : df_index df = [100%Z; 200%Z])
      by (rewrite Hidx; vm_compute; reflexivity).
    split; [exact Hrows|]. split.
    + rewrite (Hcell "B" 0%nat 100%Z);
        [vm_compute; reflexivity
        |vm_compute; apply list_elem_of_further, list_elem_of_here
        |rewrite Hrows; reflexivity].
    + rewrite (Hcell "B" 1%nat 200%Z);
        [vm_compute; reflexivity
        |vm_compute; apply list_elem_of_further, list_elem_of_here
        |rewrite Hrows; reflexivity].
Defined.

(** C9, as stated, fails: a first tick appends a sample and charts it; on
    a second tick the source is down, so the buffers are the same as after
    the first tick, and the chart rebuilt from them is the empty table. *)
Lemma C9_counterexample :
  let up := fun _ _ : string =>
    Http 200 (Some ({[ "bitcoin" := {[ "usd" := 50000 ]} ]} : PriceBody)) in
  let down := fun _ _ : string => (ConnError : HttpResult PriceBody) in
  let first := update_live ["bitcoin"] "usd" up (fun _ => 100%Z)
                 (init_live_data ["bitcoin"]) in
  let second := update_live ["bitcoin"] "usd" down (fun _ => 200%Z) first.1 in
  second.1 = first.1 ∧ second.2 ≠ first.2.
Proof.
  intros up down first second. split.
  - by vm_compute.
  - vm_compute. intros H. discriminate H.
Qed.

(** C9, amended.  The chart of a tick over distinct assets on which no
    asset returned the price zero is determined by the buffers the tick
    leaves and by the assets that returned a price on it: two such ticks,
    from whatever earlier state, that leave the same buffers and have the
    same assets returning a price give the same chart (or both raise).
    Nothing of an earlier chart enters. *)
Theorem C9_table_determined ids cur
    (price_a price_b : string → string → HttpResult PriceBody) now_a now_b
    (ld_a ld_b : gmap string (list PricePoint)) :
  NoDup ids →
  no_zero_price price_a cur ids →
  no_zero_price price_b cur ids →
  (update_live ids cur price_a now_a ld_a).1
    = (update_live ids cur price_b now_b ld_b).1 →
  priced price_a cur ids = priced price_b cur ids →
  (update_live ids cur price_a now_a ld_a).2
    = (update_live ids cur price_b now_b ld_b).2.
Proof.
  intros Hnd Hza Hzb Hbuf Hresp. unfold update_live in *.
  rewrite !update_live_loop_build by done.
  by rewrite Hbuf, !responders_priced, Hresp.
Qed.

(** C9, amended, on two ticks of the session of one asset whose sources
    differ (the second also quotes an asset that is not selected) and which
    leave the same buffer. *)
Lemma C9_table_determined_witness :
  let price_a := fun _ _ : string =>
    Http 200 (Some ({[ "bitcoin" := {[ "usd" := 50000 ]} ]} : PriceBody)) in
  let price_b := fun _ _ : string =>
    Http 200 (Some ({[ "bitcoin" := {[ "usd" := 50000 ]};
                       "ethereum" := {[ "usd" := 3000 ]} ]} : PriceBody)) in
  (update_live ["bitcoin"] "usd" price_a (fun _ => 100%Z)
     (init_live_data ["bitcoin"])).2
  = (update_live ["bitcoin"] "usd" price_b (fun _ => 100%Z)
       (init_live_data ["bitcoin"])).2.
Proof.
  intros price_a price_b. apply C9_table_determined.
  - apply (bool_decide_unpack _). vm_compute. exact I.
  - intros c p Hc Hp Hz. apply list_elem_of_singleton in Hc as ->.
    vm_compute in Hp. injection Hp as <-. vm_compute in Hz. discriminate Hz.
  - intros c p Hc Hp Hz. apply list_elem_of_singleton in Hc as ->.
    vm_compute in Hp. injection Hp as <-. vm_compute in Hz. discriminate Hz.
  - vm_compute. reflexivity.
  - vm_compute. reflexivity.
Defined.

(** ** Appending on a tick *)

(** C7 at the price zero: the source answers with the price 0, the test
    [if price:] takes it for no price, and the tick leaves the buffer as it
    was, with no column in the chart. *)
Lemma C7_zero_price_not_appended :
  let simple_price := fun _ _ : string =>
    Http 200 (Some ({[ "bitcoin" := {[ "usd" := 0 ]} ]} : PriceBody)) in
  get_live_price simple_price "bitcoin" "usd" = Some 0 ∧
  update_live ["bitcoin"] "usd" simple_price (fun _ => 100%Z)
    (init_live_data ["bitcoin"])
  = (init_live_data ["bitcoin"], Some empty_frame).
Proof. intros simple_price. split; by vm_compute. Qed.

(** For the other returned prices the sample is appended, on a tick that
    ends with a chart; and an asset without a price is skipped. *)
Lemma update_live_appends ids cur
    (simple_price : string → string → HttpResult PriceBody) now
    (ld : gmap string (list PricePoint)) c p :
  NoDup ids → c ∈ ids →
  get_live_price simple_price c cur = Some p → ¬ p == 0 →
  (update_live ids cur simple_price now ld).2 ≠ None →
  (update_live ids cur simple_price now ld).1 !!! c
  = ld !!! c ++ [mkPoint (now c) p].
Proof.
  intros Hnd Hin Hp Hnz Hok. unfold update_live in *.
  apply update_live_loop_appends; try done.
  unfold sampled_price. rewrite Hp. unfold truthy.
  destruct (Qeq_bool p 0) eqn:E; [|done].
  by apply Qeq_bool_iff in E.
Qed.

Lemma update_live_skips ids cur
    (simple_price : string → string → HttpResult PriceBody) now
    (ld : gmap string (list PricePoint)) c :
  get_live_price simple_price c cur = None →
  (update_live ids cur simple_price now ld).1 !! c = ld !! c.
Proof.
  intros Hp. unfold update_live.
  apply update_live_loop_untouched. right.
  unfold sampled_price. by rewrite Hp.
Qed.

(** * Further properties *)

(** ** Shape of the historical table *)

Lemma hist_table_names show_ma show_ema times (P V : list (Z * Q)) :
  column_names (hist_table show_ma show_ema times P V)
  = ["timestamp"; "price"; "time"; "open"; "close"; "high"; "low"; "volume"]
    ++ (if show_ma then ["MA7"; "MA25"] else [])
    ++ (if show_ema then ["EMA12"; "EMA26"] else []).
Proof. by destruct show_ma, show_ema. Qed.


Lemma get_historical_data_is_Some_aux show_ma show_ema
    (chart : string → string → string → HttpResult ChartBody) c cur d :
  is_Some (get_historical_data show_ma show_ema chart c cur d)
  → ∃ P V, chart c cur d = Http 200 (Some (mkChart (Some P) (Some V))).
Proof.
  intros [df Hdf]. unfold get_historical_data in Hdf.
  destruct (chart c cur d) as [|status body]; [done|].
  case_bool_decide as Hs; [done|].
  assert (status = 200%Z) as -> by (destruct (decide (status = 200%Z)); done).
  destruct body as [[ps vs]|]; [|done]. cbn in Hdf.
  destruct ps as [P|]; [|done]. destruct vs as [V|]; [|done].
  by exists P, V.
Qed.

(** Every table the builder returns is a table written out in
    [hist_table]. *)
Lemma get_historical_data_Some show_ma show_ema
    (chart : string → string → string → HttpResult ChartBody) c cur d df :
  get_historical_data show_ma show_ema chart c cur d = Some df →
  ∃ times P V, df = hist_table show_ma show_ema times P V.
Proof.
  intros Hdf.
  destruct (get_historical_data_is_Some_aux show_ma show_ema chart c cur d
              (ex_intro _ df Hdf)) as (P & V & Hresp).
  rewrite (get_historical_data_eq _ _ _ _ _ _ P V Hresp) in Hdf.
  destruct (mapM datetime_cell (timestamp_cells P)) as [times|]; [|done].
  cbn in Hdf. injection Hdf as <-. by exists times, P, V.
Qed.



(** ** Selecting columns and the export *)

Lemma lookup_col_is_Some name (cols : list (string * list (option Q))) :
  is_Some (lookup_col name cols) ↔ name ∈ map fst cols.
Proof.
  induction cols as [|[k v] cols IH]; simpl.
  - split; [by intros [? ?]|by intros ?%elem_of_nil].
  - rewrite elem_of_cons. case_bool_decide as Hk.
    + split; [by left|by eexists].
    + rewrite IH. split; [by right|]. by intros [?|?].
Qed.

Lemma select_pair_is_Some df n :
  is_Some (vals ← lookup_col n (df_columns df); Some (n, vals))
  ↔ n ∈ column_names df.
Proof.
  unfold column_names. rewrite <- lookup_col_is_Some.
  destruct (lookup_col n (df_columns df)); cbn; [|by split; intros [? ?]].
  split; by eexists.
Qed.

Lemma select_pairs df names cols :
  Forall2 (fun n kv =>
             (vals ← lookup_col n (df_columns df); Some (n, vals)) = Some kv)
          names cols →
  map fst cols = names ∧
  ∀ n, n ∈ names → lookup_col n cols = lookup_col n (df_columns df).
Proof.
  induction 1 as [|x [k v] names cols Hx _ [IHn IHl]].
  - split; [done|]. intros n Hn. by apply elem_of_nil in Hn.
  - destruct (lookup_col x (df_columns df)) as [vals|] eqn:Hvals; [|done].
    cbn in Hx. injection Hx as <- <-. cbn. split; [by rewrite IHn|].
    intros n Hn. case_bool_decide as Hxn; [by subst|].
    apply elem_of_cons in Hn as [->|Hn]; [done|]. by apply IHl.
Qed.

(** Selecting a list of names that are all columns of a frame gives a
    frame on the same rows whose columns are exactly the listed names, in
    the listed order, each holding what the frame holds under that name; a
    name that is not a column makes the selection raise. *)
Theorem select_columns_spec names df :
  (Forall (fun n => n ∈ column_names df) names →
   ∃ e, select_columns names df = Some e ∧
        df_index e = df_index df ∧
        column_names e = names ∧
        ∀ n, n ∈ names →
             lookup_col n (df_columns e) = lookup_col n (df_columns df)) ∧
  (¬ Forall (fun n => n ∈ column_names df) names →
   select_columns names df = None).
Proof.
  unfold select_columns. split.
  - intros Hall.
    destruct (mapM_is_Some_2
                (fun n => vals ← lookup_col n (df_columns df); Some (n, vals))
                names) as [cols Hcols].
    { eapply Forall_impl; [exact Hall|].
      intros n Hn. by apply select_pair_is_Some. }
    rewrite Hcols. cbn. eexists. split; [done|]. split; [done|].
    apply mapM_Some_1 in Hcols. by apply select_pairs in Hcols.
  - intros Hnot.
    destruct (mapM _ names) as [cols|] eqn:Hcols; [|done].
    exfalso. apply Hnot.
    assert (Hs : is_Some (mapM
      (fun n => vals ← lookup_col n (df_columns df); Some (n, vals)) names))
      by (by eexists).
    apply mapM_is_Some_1 in Hs.
    eapply Forall_impl; [exact Hs|].
    intros n Hn. by apply select_pair_is_Some.
Qed.

(** On a frame with the columns a, b: selecting b, a swaps them, and
    selecting c raises. *)
Lemma select_columns_spec_witness :
  let df := mkDF [0%Z] [("a", [Some 1]); ("b", [Some 2])] in
  (∃ e, select_columns ["b"; "a"] df = Some e ∧ column_names e = ["b"; "a"]) ∧
  select_columns ["c"] df = None.
Proof.
  intros df. split.
  - destruct (select_columns_spec ["b"; "a"] df) as [Hok _].
    destruct Hok as (e & He & _ & Hn & _).
    + apply (bool_decide_unpack _). vm_compute. exact I.
    + exists e. split; [exact He|exact Hn].
  - destruct (select_columns_spec ["c"] df) as [_ Hko].
    apply Hko. apply (bool_decide_unpack _). vm_compute. exact I.
Defined.

Lemma indicator_cols_table show_ma show_ema times (P V : list (Z * Q)) :
  indicator_cols (hist_table show_ma show_ema times P V)
  = (if show_ma then ["MA7"; "MA25"] else [])
    ++ (if show_ema then ["EMA12"; "EMA26"] else []).
Proof.
  unfold indicator_cols. rewrite hist_table_names.
  destruct show_ma, show_ema; by vm_compute.
Qed.

(** X3. For every table the builder returns, the export selection does not
    raise; the exported table has the same rows and exactly the columns
    time, open, high, low, close, volume followed by the indicator columns
    that were switched on (MA7, MA25, then EMA12, EMA26), each as in the
    table; the raw timestamp and price columns are not exported. *)
Theorem historical_export_columns show_ma show_ema
    (chart : string → string → string → HttpResult ChartBody) c cur d df :
  get_historical_data show_ma show_ema chart c cur d = Some df →
  ∃ e, historical_export df = Some e ∧
    df_index e = df_index df ∧
    column_names e
    = ["time"; "open"; "high"; "low"; "close"; "volume"]
      ++ (if show_ma then ["MA7"; "MA25"] else [])
      ++ (if show_ema then ["EMA12"; "EMA26"] else []) ∧
    (∀ n, n ∈ column_names e →
          lookup_col n (df_columns e) = lookup_col n (df_columns df)) ∧
    ("timestamp" ∉ column_names e) ∧ ("price" ∉ column_names e).
Proof.
  intros Hdf.
  destruct (get_historical_data_Some show_ma show_ema chart c cur d df Hdf)
    as (times & P & V & ->).
  unfold historical_export. rewrite indicator_cols_table.
  destruct (select_columns_spec
              (["time"; "open"; "high"; "low"; "close"; "volume"]
               ++ (if show_ma then ["MA7"; "MA25"] else [])
               ++ (if show_ema then ["EMA12"; "EMA26"] else []))
              (hist_table show_ma show_ema times P V)) as [Hok _].
  destruct Hok as (e & He & Hidx & Hnames & Hlook).
  { rewrite hist_table_names. apply (bool_decide_unpack _).
    destruct show_ma, show_ema; vm_compute; exact I. }
  exists e. split; [done|]. split; [done|]. split; [done|].
  split; [by rewrite Hnames|].
  rewrite Hnames.
  split; apply (bool_decide_unpack _);
    destruct show_ma, show_ema; vm_compute; exact I.
Qed.

(** X3 on one price and one volume, the moving averages on. *)
Lemma historical_export_columns_witness :
  let chart := fun _ _ _ : string =>
    Http 200 (Some (mkChart (Some [(1000%Z, 3)]) (Some [(1000%Z, 7)]))) in
  ∃ df e, get_historical_data true false chart "bitcoin" "usd" "7" = Some df ∧
    historical_export df = Some e ∧
    column_names e
    = ["time"; "open"; "high"; "low"; "close"; "volume"; "MA7"; "MA25"].
Proof.
  intros chart.
  destruct (get_historical_data true false chart "bitcoin" "usd" "7")
    as [df|] eqn:Hdf; [|vm_compute in Hdf; discriminate Hdf].
  destruct (historical_export_columns true false chart "bitcoin" "usd" "7" df
              Hdf) as (e & He & _ & Hnames & _).
  exists df, e. split; [reflexivity|]. split; [exact He|exact Hnames].
Defined.

(** ** Missing values through the window operations *)

Lemma observations_all_missing (cells : list (option Q)) :
  Forall (fun x => x = None) cells → observations cells = [].
Proof.
  unfold observations. induction 1 as [|x cells -> _ IH]; [done|]. exact IH.
Qed.

Lemma rolling_all_missing w agg n :
  rolling w agg (replicate n None) = replicate n None.
Proof.
  apply list_eq. intros i.
  destruct (decide (i < n)%nat) as [Hi|Hi].
  - rewrite rolling_lookup by (by rewrite length_replicate).
    rewrite lookup_replicate_2 by done. cbv zeta.
    rewrite observations_all_missing; [by rewrite andb_false_r|].
    unfold window. apply Forall_drop, Forall_take, Forall_replicate. done.
  - rewrite !(lookup_ge_None_2 _ i);
      rewrite ?rolling_length, ?length_replicate; [done|lia|lia].
Qed.

Lemma ewm_loop_all_missing alpha n :
  ewm_loop alpha None 1 (replicate n None) = replicate n None.
Proof. induction n as [|n IH]; [done|]. simpl. by rewrite IH. Qed.

Lemma ewm_mean_all_missing s n :
  ewm_mean s (replicate n None) = replicate n None.
Proof.
  destruct n as [|n]; [done|]. unfold ewm_mean. simpl.
  by rewrite ewm_loop_all_missing.
Qed.

(** X4. A response with both fields, no price and some volumes still gives
    a table: it has one row per volume, its volume column holds the
    volumes, and every cell of every other column (candles and indicators)
    is a missing value. *)
Theorem get_historical_data_without_prices show_ma show_ema
    (chart : string → string → string → HttpResult ChartBody) c cur d
    (V : list (Z * Q)) :
  chart c cur d = Http 200 (Some (mkChart (Some []) (Some V))) →
  ∃ df, get_historical_data show_ma show_ema chart c cur d = Some df ∧
    length (df_index df) = length V ∧
    lookup_col "volume" (df_columns df)
      = Some (map (fun r : Z * Q => Some r.2) V) ∧
    ∀ name col, lookup_col name (df_columns df) = Some col →
                name ≠ "volume" → col = replicate (length V) None.
Proof.
  intros Hresp. eexists.
  split; [by rewrite (get_historical_data_eq _ _ _ _ _ _ [] V Hresp)|].
  unfold hist_table, hist_rows, hist_indicator_columns.
  cbn [df_index df_columns]. split; [by rewrite range_index_length|].
  split; [frame_step; by rewrite volume_cells|].
  intros name col Hcol Hname.
  rewrite !rolling_all_missing, !ewm_mean_all_missing in Hcol.
  destruct show_ma, show_ema; cbn in Hcol;
    repeat (case_bool_decide; [congruence|]);
    done.
Qed.

(** X4 on two volumes. *)
Lemma get_historical_data_without_prices_witness :
  let chart := fun _ _ _ : string =>
    Http 200 (Some (mkChart (Some []) (Some [(1000%Z, 7); (2000%Z, 8)]))) in
  ∃ df, get_historical_data true true chart "bitcoin" "usd" "7" = Some df ∧
    length (df_index df) = 2%nat ∧
    lookup_col "volume" (df_columns df) = Some [Some 7; Some 8].
Proof.
  intros chart.
  destruct (get_historical_data_without_prices true true chart "bitcoin" "usd"
              "7" [(1000%Z, 7); (2000%Z, 8)] eq_refl)
    as (df & Hdf & Hrows & Hvol & _).
  exists df. split; [exact Hdf|]. split; [exact Hrows|exact Hvol].
Defined.

(** ** Indicators in the table *)



(** ** The result collection, in full *)

(** X6. The result collection holds a table for an asset exactly when the
    asset is selected and the builder returned that table for it; it is
    empty (the page then shows the no-data warning) exactly when the
    builder returned nothing for every selected asset. *)
Theorem all_hist_data_spec ids cur d ma ema
    (chart : string → string → string → HttpResult ChartBody) :
  (∀ c df, all_hist_data ids cur d ma ema chart !! c = Some df
           ↔ c ∈ ids ∧ get_historical_data ma ema chart c cur d = Some df) ∧
  (all_hist_data ids cur d ma ema chart = ∅
   ↔ ∀ c, c ∈ ids → get_historical_data ma ema chart c cur d = None).
Proof.
  split.
  - intros c df. rewrite all_hist_data_lookup.
    case_bool_decide; [|split; [done|by intros [? _]]].
    split; [done|by intros [_ ?]].
  - split.
    + intros Hempty c Hc.
      pose proof (all_hist_data_lookup ids cur d ma ema chart c) as Hl.
      rewrite Hempty, lookup_empty, bool_decide_eq_true_2 in Hl by done.
      done.
    + intros Hall. apply map_eq. intros c.
      rewrite all_hist_data_lookup, lookup_empty.
      case_bool_decide; [by apply Hall|done].
Qed.

(** X6 with one asset down and one up: the collection holds the second
    only. *)
Lemma all_hist_data_spec_witness :
  let chart := fun (c _ _ : string) =>
    if bool_decide (c = "bitcoin") then ConnError
    else Http 200 (Some (mkChart (Some [(1000%Z, 3)]) (Some [(1000%Z, 7)]))) in
  all_hist_data ["bitcoin"; "ethereum"] "usd" "7" false false chart
    !! "bitcoin" = None ∧
  ∃ df, all_hist_data ["bitcoin"; "ethereum"] "usd" "7" false false chart
          !! "ethereum" = Some df.
Proof.
  intros chart.
  destruct (all_hist_data_spec ["bitcoin"; "ethereum"] "usd" "7" false false
              chart) as [Hlook _].
  split.
  - destruct (all_hist_data _ _ _ _ _ _ !! "bitcoin") as [df|] eqn:E;
      [|reflexivity].
    apply Hlook in E as [_ E]. vm_compute in E. discriminate E.
  - eexists. apply Hlook. split.
    + apply list_elem_of_further, list_elem_of_here.
    + vm_compute. reflexivity.
Defined.

(** ** Buffers over a tick *)

Lemma sampled_price_Some
    (simple_price : string → string → HttpResult PriceBody) cur c p :
  sampled_price simple_price cur c = Some p
  ↔ get_live_price simple_price c cur = Some p ∧ ¬ p == 0.
Proof.
  unfold sampled_price, truthy.
  destruct (get_live_price simple_price c cur) as [q|];
    [|split; [done|by intros [? _]]].
  destruct (Qeq_bool q 0) eqn:E; cbn.
  - apply Qeq_bool_iff in E. split; [done|].
    intros [[= ->] Hnz]. done.
  - apply Qeq_bool_neq in E. split.
    + intros [= ->]. done.
    + by intros [[= ->] _].
Qed.

Lemma update_live_loop_buffer cur
    (simple_price : string → string → HttpResult PriceBody) now c rest :
  ∀ (ld : gmap string (list PricePoint)) df,
  NoDup rest →
  (update_live_loop cur simple_price now rest ld df).1 !!! c = ld !!! c ∨
  ∃ p, sampled_price simple_price cur c = Some p ∧ c ∈ rest ∧
       (update_live_loop cur simple_price now rest ld df).1 !!! c
       = ld !!! c ++ [mkPoint (now c) p].
Proof.
  induction rest as [|x rest IH]; intros ld df Hnd; [by left|].
  apply NoDup_cons in Hnd as [Hxr Hnd].
  rewrite update_live_loop_cons.
  destruct (sampled_price simple_price cur x) as [p|] eqn:Hp.
  - cbv zeta.
    set (ld1 := <[x := ld !!! x ++ [mkPoint (now x) p]]> ld).
    destruct (decide (x = c)) as [->|Hne].
    + right. exists p. split; [done|]. split; [apply list_elem_of_here|].
      destruct (df_setitem _ _ _) as [df'|]; cbn.
      * rewrite update_live_loop_untouched_total by (by left).
        unfold ld1. by rewrite lookup_total_insert_eq.
      * unfold ld1. by rewrite lookup_total_insert_eq.
    + assert (Hld1 : ld1 !!! c = ld !!! c)
        by (unfold ld1; by rewrite lookup_total_insert_ne).
      destruct (df_setitem _ _ _) as [df'|]; cbn; [|by left].
      destruct (IH ld1 df' Hnd) as [Hsame|(q & Hq & Hin & Happ)].
      * left. by rewrite Hsame.
      * right. exists q. split; [done|].
        split; [by apply list_elem_of_further|]. by rewrite Happ, Hld1.
  - destruct (IH ld df Hnd) as [Hsame|(q & Hq & Hin & Happ)]; [by left|].
    right. exists q. split; [done|]. split; [by apply list_elem_of_further|].
    done.
Qed.

(** X10. Over one tick on distinct assets, whether or not the tick ends
    with a chart, the buffer of an asset is either unchanged or extended at
    its end by one sample, stamped with the asset's clock reading and
    holding a non-zero price that the source returned for a selected
    asset; nothing is removed or rewritten. *)
Theorem update_live_append_only ids cur
    (simple_price : string → string → HttpResult PriceBody) now
    (ld : gmap string (list PricePoint)) c :
  NoDup ids →
  (update_live ids cur simple_price now ld).1 !!! c = ld !!! c ∨
  ∃ p, get_live_price simple_price c cur = Some p ∧ ¬ p == 0 ∧ c ∈ ids ∧
       (update_live ids cur simple_price now ld).1 !!! c
       = ld !!! c ++ [mkPoint (now c) p].
Proof.
  intros Hnd. unfold update_live.
  destruct (update_live_loop_buffer cur simple_price now c ids ld empty_frame Hnd)
    as [Hsame|(p & Hp & Hin & Happ)]; [by left|].
  right. exists p. apply sampled_price_Some in Hp as [Hp Hnz]. done.
Qed.

(** X10 on one asset that answers 7 at the clock reading 200. *)
Lemma update_live_append_only_witness :
  let simple_price := fun _ _ : string =>
    Http 200 (Some ({[ "A" := {[ "usd" := 7 ]} ]} : PriceBody)) in
  let before : gmap string (list PricePoint) := {[ "A" := [mkPoint 100 5] ]} in
  (update_live ["A"] "usd" simple_price (fun _ => 200%Z) before).1 !!! "A"
  = [mkPoint 100 5; mkPoint 200 7].
Proof.
  intros simple_price before.
  destruct (update_live_append_only ["A"] "usd" simple_price (fun _ => 200%Z)
              before "A") as [Hsame|(p & Hp & _ & _ & Happ)].
  - apply (bool_decide_unpack _). vm_compute. exact I.
  - vm_compute in Hsame. discriminate Hsame.
  - vm_compute in Hp. injection Hp as <-. rewrite Happ. reflexivity.
Defined.

(** X11. When no selected asset contributes on a tick (each source call
    fails, returns no price, or returns the price zero), the tick leaves
    the buffers as they were and charts the table without rows or columns,
    whatever the buffers hold. *)
Theorem update_live_silent ids cur
    (simple_price : string → string → HttpResult PriceBody) now
    (ld : gmap string (list PricePoint)) :
  (∀ c p, c ∈ ids → get_live_price simple_price c cur = Some p → p == 0) →
  update_live ids cur simple_price now ld = (ld, Some empty_frame).
Proof.
  intros Hsilent. unfold update_live. generalize empty_frame as df.
  induction ids as [|x ids IH]; intros df; [done|].
  rewrite update_live_loop_cons.
  destruct (sampled_price simple_price cur x) as [p|] eqn:Hp.
  - apply sampled_price_Some in Hp as [Hp Hnz].
    destruct Hnz. apply (Hsilent x p); [apply list_elem_of_here|done].
  - apply IH. intros c p Hc. apply Hsilent. by apply list_elem_of_further.
Qed.

(** X11 with the source down. *)
Lemma update_live_silent_witness :
  let before : gmap string (list PricePoint) := {[ "A" := [mkPoint 100 5] ]} in
  update_live ["A"] "usd" (fun _ _ => ConnError) (fun _ => 200%Z) before
  = (before, Some empty_frame).
Proof.
  intros before. apply update_live_silent.
  intros c p _ Hp. vm_compute in Hp. discriminate Hp.
Defined.

(** ** The clock and the chart *)

Lemma increasing_NoDup (l : list Z) : StronglySorted Z.lt l → NoDup l.
Proof.
  induction 1 as [|x l _ IH Hx]; [apply NoDup_nil_2|].
  apply NoDup_cons. split; [|done].
  intros Hin. rewrite Forall_forall in Hx.
  specialize (Hx x Hin). lia.
Qed.

(** A tick whose clock readings are later than the stamps already held
    keeps the stamps of each buffer strictly increasing. *)
Lemma update_live_keeps_increasing ids cur
    (simple_price : string → string → HttpResult PriceBody) now
    (ld : gmap string (list PricePoint)) c :
  NoDup ids →
  increasing_stamps (ld !!! c) →
  Forall (fun t => (t < now c)%Z) (map time (ld !!! c)) →
  increasing_stamps ((update_live ids cur simple_price now ld).1 !!! c).
Proof.
  intros Hnd Hinc Hlater. unfold update_live.
  destruct (update_live_loop_buffer cur simple_price now c ids ld empty_frame Hnd)
    as [->|(p & _ & _ & ->)]; [done|].
  unfold increasing_stamps. rewrite map_app. cbn.
  apply StronglySorted_app_2; [|done|repeat constructor].
  intros t1 t2 Ht1 ->%list_elem_of_singleton.
  rewrite Forall_forall in Hlater. by apply Hlater.
Qed.

(** A tick on distinct assets that leaves distinct stamps in each buffer
    ends with a chart. *)
Lemma update_live_no_raise ids cur
    (simple_price : string → string → HttpResult PriceBody) now
    (ld : gmap string (list PricePoint)) :
  NoDup ids →
  (∀ c, c ∈ ids →
        NoDup (map time ((update_live ids cur simple_price now ld).1 !!! c))) →
  (update_live ids cur simple_price now ld).2
  = Some (aligned_table (responders simple_price cur ids)
            (update_live ids cur simple_price now ld).1).
Proof.
  intros Hnd Hstamps.
  pose proof (update_live_loop_table cur simple_price now ids [] ld) as Htab.
  simpl in Htab. unfold update_live in *.
  change (aligned_table [] ld) with empty_frame in Htab.
  by apply Htab.
Qed.

(** X12. On a tick over distinct assets, when the buffer of every selected
    asset has strictly increasing stamps and the clock reading of the tick
    for that asset is later than all of them, no column assignment raises:
    the tick ends with a chart, and every such buffer still has strictly
    increasing stamps. *)
Theorem update_live_increasing_clock ids cur
    (simple_price : string → string → HttpResult PriceBody) now
    (ld : gmap string (list PricePoint)) :
  NoDup ids →
  (∀ c, c ∈ ids → increasing_stamps (ld !!! c) ∧
                  Forall (fun t => (t < now c)%Z) (map time (ld !!! c))) →
  (∃ df, (update_live ids cur simple_price now ld).2 = Some df) ∧
  ∀ c, c ∈ ids →
       increasing_stamps ((update_live ids cur simple_price now ld).1 !!! c).
Proof.
  intros Hnd Hclock.
  assert (Hinc : ∀ c, c ∈ ids →
    increasing_stamps ((update_live ids cur simple_price now ld).1 !!! c)).
  { intros c Hc. destruct (Hclock c Hc) as [H1 H2].
    by apply update_live_keeps_increasing. }
  split; [|exact Hinc].
  eexists. apply update_live_no_raise; [done|].
  intros c Hc. apply increasing_NoDup. by apply Hinc.
Qed.

(** X12 on a buffer stamped 100 and a clock reading 200. *)
Lemma update_live_increasing_clock_witness :
  let simple_price := fun _ _ : string =>
    Http 200 (Some ({[ "A" := {[ "usd" := 7 ]} ]} : PriceBody)) in
  let before : gmap string (list PricePoint) := {[ "A" := [mkPoint 100 5] ]} in
  ∃ df, (update_live ["A"] "usd" simple_price (fun _ => 200%Z) before).2
        = Some df.
Proof.
  intros simple_price before.
  apply (update_live_increasing_clock ["A"] "usd" simple_price
           (fun _ => 200%Z) before).
  - apply (bool_decide_unpack _). vm_compute. exact I.
  - intros c Hc. apply list_elem_of_singleton in Hc as ->. split.
    + vm_compute. repeat constructor.
    + vm_compute. repeat constructor.
Defined.

(** X13. On a tick over distinct assets that leaves distinct stamps in
    each buffer, the column of a contributing asset other than the first
    one is entirely missing when none of the first contributing asset's
    stamps is a stamp of that asset: with clock readings that differ from
    asset to asset, only the first column carries values. *)
Theorem update_live_disjoint_column ids cur
    (simple_price : string → string → HttpResult PriceBody) now
    (ld : gmap string (list PricePoint)) c0 others c :
  NoDup ids →
  (∀ c, c ∈ ids →
        NoDup (map time ((update_live ids cur simple_price now ld).1 !!! c))) →
  responders simple_price cur ids = c0 :: others →
  c ∈ others →
  (∀ t, t ∈ map time ((update_live ids cur simple_price now ld).1 !!! c0) →
        t ∉ map time ((update_live ids cur simple_price now ld).1 !!! c)) →
  ∃ df, (update_live ids cur simple_price now ld).2 = Some df ∧
    length (df_index df)
    = length ((update_live ids cur simple_price now ld).1 !!! c0) ∧
    ∀ i, (i < length (df_index df))%nat → df_cell df c i = Some None.
Proof.
  intros Hnd Hstamps Hresp Hc Hdisj.
  eexists. split; [by apply update_live_no_raise|].
  rewrite Hresp. split; [cbn; by rewrite length_map|].
  intros i Hi.
  destruct (lookup_lt_is_Some_2 _ i Hi) as [t Ht].
  rewrite (aligned_table_cell _ _ c i t); [|by apply list_elem_of_further|done].
  f_equal. apply eq_None_not_Some. intros Hs.
  apply sample_at_is_Some in Hs. apply (Hdisj t); [|done].
  cbn in Ht. by apply list_elem_of_lookup_2 in Ht.
Qed.

(** X13 on two assets stamped 200 and 201 on the same tick. *)
Lemma update_live_disjoint_column_witness :
  let simple_price := fun _ _ : string =>
    Http 200 (Some ({[ "A" := {[ "usd" := 6 ]}; "B" := {[ "usd" := 7 ]} ]}
                    : PriceBody)) in
  let clock := fun c : string =>
    if bool_decide (c = "A") then 200%Z else 201%Z in
  ∃ df, (update_live ["A"; "B"] "usd" simple_price clock
           (init_live_data ["A"; "B"])).2 = Some df ∧
        df_cell df "B" 0 = Some None.
Proof.
  intros simple_price clock.
  destruct (update_live_disjoint_column ["A"; "B"] "usd" simple_price clock
              (init_live_data ["A"; "B"]) "A" ["B"] "B")
    as (df & Hdf & Hrows & Hcell).
  - apply (bool_decide_unpack _). vm_compute. exact I.
  - intros c Hc. apply (bool_decide_unpack _).
    repeat (apply elem_of_cons in Hc as [->|Hc]);
      [vm_compute; exact I..|by apply elem_of_nil in Hc].
  - vm_compute. reflexivity.
  - apply list_elem_of_here.
  - intros t Ht. vm_compute in Ht. apply list_elem_of_singleton in Ht as ->.
    vm_compute. intros H. apply list_elem_of_singleton in H. discriminate H.
  - exists df. split; [exact Hdf|]. apply Hcell. rewrite Hrows.
    vm_compute. lia.
Defined.

(** ** The auto-refresh session *)




Lemma run_ticks_increasing ids cur :
  NoDup ids →
  ∀ ticks (ld : gmap string (list PricePoint)),
  (∀ c, c ∈ ids → increasing_stamps (ld !!! c)) →
  (∀ k tick c, c ∈ ids → ticks !! k = Some tick →
               Forall (fun t => (t < tick.2 c)%Z) (map time (ld !!! c))) →
  (∀ j k tj tk c, c ∈ ids → (j < k)%nat →
                  ticks !! j = Some tj → ticks !! k = Some tk →
                  (tj.2 c < tk.2 c)%Z) →
  (run_ticks ids cur ticks ld).2 = true ∧
  ∀ c, c ∈ ids → increasing_stamps ((run_ticks ids cur ticks ld).1 !!! c).
Proof.
  intros Hnd. induction ticks as [|tick ticks IH];
    intros ld Hinc Hlater Hmono; [done|].
  cbn [run_ticks].
  assert (Hinc1 : ∀ c, c ∈ ids →
    increasing_stamps ((update_live ids cur tick.1 tick.2 ld).1 !!! c)).
  { intros c Hc. apply update_live_keeps_increasing; [done|by apply Hinc|].
    by apply (Hlater 0%nat tick c Hc). }
  assert (Hchart : is_Some (update_live ids cur tick.1 tick.2 ld).2).
  { eexists. apply update_live_no_raise; [done|].
    intros c Hc. apply increasing_NoDup. by apply Hinc1. }
  assert (Hlater1 : ∀ k tk c, c ∈ ids → ticks !! k = Some tk →
    Forall (fun t => (t < tk.2 c)%Z)
           (map time ((update_live ids cur tick.1 tick.2 ld).1 !!! c))).
  { intros k tk c Hc Hk. unfold update_live.
    destruct (update_live_loop_buffer cur tick.1 tick.2 c ids ld empty_frame
                Hnd) as [->|(p & _ & _ & ->)].
    - by apply (Hlater (S k) tk c Hc).
    - rewrite map_app. apply Forall_app. split.
      + by apply (Hlater (S k) tk c Hc).
      + cbn. apply Forall_singleton.
        apply (Hmono 0%nat (S k) tick tk c Hc); [lia|done|done]. }
  destruct (update_live ids cur tick.1 tick.2 ld) as [ld1 chart].
  cbn in Hinc1, Hchart, Hlater1. destruct Hchart as [df ->].
  apply IH; [done|done|].
  intros j k tj tk c Hc Hjk Hj Hk.
  apply (Hmono (S j) (S k) tj tk c Hc); [lia|done|done].
Qed.

(** X15. An auto-refresh session on distinct assets whose clock readings
    strictly increase from tick to tick for every selected asset, starting
    from buffers with strictly increasing stamps earlier than every
    reading, runs all its fifty ticks without raising, and ends on buffers
    with strictly increasing stamps. *)
Theorem auto_refresh_session_completes ids cur world
    (ld : gmap string (list PricePoint)) :
  NoDup ids →
  (∀ c, c ∈ ids → increasing_stamps (ld !!! c)) →
  (∀ k c, c ∈ ids →
          Forall (fun t => (t < (world k).2 c)%Z) (map time (ld !!! c))) →
  (∀ j k c, c ∈ ids → (j < k)%nat → ((world j).2 c < (world k).2 c)%Z) →
  (auto_refresh_session ids cur world ld).2 = true ∧
  ∀ c, c ∈ ids →
       increasing_stamps ((auto_refresh_session ids cur world ld).1 !!! c).
Proof.
  intros Hnd Hinc Hlater Hmono. unfold auto_refresh_session.
  apply run_ticks_increasing; [done|done| |].
  - intros k tick c Hc Hk.
    rewrite list_lookup_fmap in Hk.
    destruct (seq 0 50 !! k) as [n|]; [|done].
    cbn in Hk. injection Hk as <-. by apply Hlater.
  - intros j k tj tk c Hc Hjk Hj Hk.
    rewrite list_lookup_fmap in Hj, Hk.
    destruct (seq 0 50 !! j) as [nj|] eqn:Ej; [|done].
    destruct (seq 0 50 !! k) as [nk|] eqn:Ek; [|done].
    cbn in Hj, Hk. injection Hj as <-. injection Hk as <-.
    apply lookup_seq in Ej as [-> _]. apply lookup_seq in Ek as [-> _].
    apply Hmono; [done|lia].
Qed.

(** X15 on one asset answered 7 on every tick, tick [k] stamped [k]. *)
Lemma auto_refresh_session_completes_witness :
  let world := fun k : nat =>
    ((fun _ _ : string =>
        Http 200 (Some ({[ "A" := {[ "usd" := 7 ]} ]} : PriceBody))),
     (fun _ : string => Z.of_nat k)) in
  (auto_refresh_session ["A"] "usd" world (init_live_data ["A"])).2 = true.
Proof.
  intros world.
  apply (auto_refresh_session_completes ["A"] "usd" world
           (init_live_data ["A"])).
  - apply (bool_decide_unpack _). vm_compute. exact I.
  - intros c Hc. apply list_elem_of_singleton in Hc as ->.
    vm_compute. constructor.
  - intros k c Hc. apply list_elem_of_singleton in Hc as ->.
    vm_compute. constructor.
  - intros j k c _ Hjk. simpl. lia.
Defined.

(** ** The catalogue *)

Section CatalogueProperties.

Variable upper : string → string.

Lemma coin_options_snoc rows r :
  coin_options upper (rows ++ [r])
  = <[coin_label upper r := row_id r]> (coin_options upper rows).
Proof. unfold coin_options. by rewrite foldl_app. Qed.

(** X16. The options map sends a label to the id of the last row of the
    coin list that has this label, and has no entry for a label that no row
    has: of several coins with the same name and symbol, only the last one
    can be selected. *)
Theorem coin_options_lookup (rows : list CoinRow) (label : string) :
  coin_options upper rows !! label
  = row_id <$> last (filter (fun r => coin_label upper r = label) rows).
Proof.
  induction rows as [|r rows IH] using rev_ind; [done|].
  rewrite coin_options_snoc, filter_app.
  destruct (decide (coin_label upper r = label)) as [Hr|Hr].
  - rewrite filter_cons_True, filter_nil by done.
    rewrite last_snoc. cbn. rewrite Hr. by rewrite lookup_insert_eq.
  - rewrite filter_cons_False, filter_nil, app_nil_r by done.
    by rewrite lookup_insert_ne.
Qed.

Lemma coin_options_is_Some (rows : list CoinRow) (label : string) i :
  coin_options upper rows !! label = Some i →
  ∃ r, r ∈ rows ∧ coin_label upper r = label ∧ row_id r = i.
Proof.
  rewrite coin_options_lookup. intros Hl.
  destruct (last _) as [r|] eqn:Hlast; [|done].
  cbn in Hl. injection Hl as <-.
  apply last_Some in Hlast as [l' Hl'].
  assert (Hin : r ∈ filter (fun r => coin_label upper r = label) rows).
  { rewrite Hl'. apply elem_of_app. right. apply list_elem_of_here. }
  apply list_elem_of_filter in Hin as [Hlab Hin]. by exists r.
Qed.

(** X17. When every selected label is a key of the options map, the
    selection resolves: there is one id per selected label, in order, and
    each is the id of a row of the coin list with that label.  A selected
    label that is not a key makes the lookup raise. *)
Theorem selected_ids_of_spec (rows : list CoinRow) (selected : list string) :
  (Forall (fun l => is_Some (coin_options upper rows !! l)) selected →
   ∃ ids, selected_ids_of upper rows selected = Some ids ∧
          Forall2 (fun l i => ∃ r, r ∈ rows ∧ coin_label upper r = l ∧
                                   row_id r = i) selected ids) ∧
  (¬ Forall (fun l => is_Some (coin_options upper rows !! l)) selected →
   selected_ids_of upper rows selected = None).
Proof.
  unfold selected_ids_of. split.
  - intros Hall.
    destruct (mapM_is_Some_2 (fun c => coin_options upper rows !! c) selected
                Hall) as [ids Hids].
    exists ids. split; [done|].
    apply mapM_Some_1 in Hids.
    eapply Forall2_impl; [exact Hids|].
    intros l i Hl. by apply coin_options_is_Some.
  - intros Hnot.
    destruct (mapM _ selected) as [ids|] eqn:Hids; [|done].
    exfalso. apply Hnot.
    apply (mapM_is_Some_1 (fun c => coin_options upper rows !! c)).
    by eexists.
Qed.

End CatalogueProperties.

(** X16 on two coins that share name and symbol. *)
Lemma coin_options_lookup_witness :
  let rows := [mkCoin "pepe" "pepe" "Pepe"; mkCoin "pepe-2" "pepe" "Pepe"] in
  coin_options (fun s => s) rows !! "Pepe (pepe)" = Some "pepe-2".
Proof.
  intros rows. rewrite (coin_options_lookup (fun s => s) rows "Pepe (pepe)").
  reflexivity.
Defined.

(** X17 on a label of the list and a label that is not. *)
Lemma selected_ids_of_spec_witness :
  let rows := [mkCoin "pepe" "pepe" "Pepe"; mkCoin "pepe-2" "pepe" "Pepe"] in
  (∃ ids, selected_ids_of (fun s => s) rows ["Pepe (pepe)"] = Some ids) ∧
  selected_ids_of (fun s => s) rows ["Bitcoin (btc)"] = None.
Proof.
  intros rows.
  destruct (selected_ids_of_spec (fun s => s) rows ["Pepe (pepe)"]) as [Hok _].
  destruct (selected_ids_of_spec (fun s => s) rows ["Bitcoin (btc)"])
    as [_ Hko].
  split.
  - destruct Hok as (ids & Hids & _).
    + apply Forall_singleton. vm_compute. by eexists.
    + by exists ids.
  - apply Hko. intros H. apply Forall_cons in H as [[i H] _].
    vm_compute in H. discriminate H.
Defined.

